(** * Image compression service: a shallow embedding of [server.py]

    The service has two handlers: [compress_image] (POST /api/compress)
    and [get_compression_stats] (GET /api/stats).  The handlers are
    embedded as functions in a state-and-exception monad over the
    persisted collection and the log.  The collaborators the handlers
    call but do not define (Pillow, the Python float, the MongoDB
    cursor) are interfaces, given as type classes with their laws;
    everything the source file itself decides (guards, dispatch on the
    colour mode, order of effects, header assembly) is defined here. *)

From Stdlib Require Import List String Ascii ZArith NArith Lia Bool Arith.
From Stdlib Require Import Permutation Sorted DecimalString DecimalZ DecimalPos.
Import ListNotations.

Local Open Scope string_scope.
Local Open Scope Z_scope.

(** ** Python values *)

Definition bytes := list Init.Byte.byte.

(** [len(b)] *)
Definition len (b : bytes) : Z := Z.of_nat (List.length b).

(** An exception object that derives from [Exception]: its class and
    [str(e)].  What [except Exception] lets pass ([CancelledError],
    [KeyboardInterrupt], [SystemExit]) is no value of this type: a
    request that is cancelled is not modelled. *)
Record exn := PyExc { exn_class : string; exn_str : string }.

Inductive result (A : Type) : Type :=
| Ok (a : A)
| Raise (e : exn).
Arguments Ok {A} a.
Arguments Raise {A} e.

Definition rbind {A B} (r : result A) (k : A -> result B) : result B :=
  match r with
  | Ok a => k a
  | Raise e => Raise e
  end.

Declare Scope result_scope.
Delimit Scope result_scope with result.
Notation "x <- r ;; k" := (rbind r (fun x => k))
  (at level 61, r at next level, right associativity) : result_scope.

(** The double quote character, for f-strings that contain one. *)
Definition dquote : string := String (ascii_of_nat 34) EmptyString.

(** [str(n)] for an [int]. *)
Definition str_int (n : Z) : string := NilZero.string_of_int (Z.to_int n).

(** [int(s)] on a decimal numeral. *)
Definition int_of_str (s : string) : option Z :=
  option_map Z.of_int (NilZero.int_of_string s).

(** [x in (a, b, ...)] on strings. *)
Fixpoint str_in (x : string) (l : list string) : bool :=
  match l with
  | [] => false
  | y :: l' => String.eqb x y || str_in x l'
  end.

(** [t[-1]] on a tuple. *)
Definition last_item {A} (t : list A) : result A :=
  match rev t with
  | x :: _ => Ok x
  | [] => Raise (PyExc "IndexError" "tuple index out of range")
  end.

(** ** [pathlib.Path(name).stem] (POSIX flavour) *)

Module Pathlib.

(** [c in s] *)
Fixpoint has_char (c : ascii) (s : string) : bool :=
  match s with
  | EmptyString => false
  | String c' s' => Ascii.eqb c' c || has_char c s'
  end.

(** [s.split('/')] *)
Fixpoint split_slash (s : string) : list string :=
  match s with
  | EmptyString => [EmptyString]
  | String c s' =>
      if Ascii.eqb c "/"%char then EmptyString :: split_slash s'
      else match split_slash s' with
           | p :: ps => String c p :: ps
           | [] => [String c EmptyString]
           end
  end.

(** The parts of a path: empty components and ["."] are dropped. *)
Definition parts (s : string) : list string :=
  filter (fun p => negb (String.eqb p "" || String.eqb p ".")) (split_slash s).

(** [Path(s).name]: the final component, [''] when there is none. *)
Definition name (s : string) : string :=
  match rev (parts s) with
  | p :: _ => p
  | [] => ""
  end.

(** [s.rfind('.')], [None] standing for [-1]. *)
Fixpoint rfind_dot (s : string) : option nat :=
  match s with
  | EmptyString => None
  | String c s' =>
      match rfind_dot s' with
      | Some i => Some (S i)
      | None => if Ascii.eqb c "."%char then Some O else None
      end
  end.

(** [Path(s).stem]: the name cut at its last dot, when that dot is
    neither the first nor the last character of the name. *)
Definition stem (s : string) : string :=
  let n := name s in
  match rfind_dot n with
  | Some i =>
      if (0 <? i)%nat && (i <? String.length n - 1)%nat
      then substring 0 i n else n
  | None => n
  end.

End Pathlib.

(** ** The Python float *)

(** Binary floating point is the interpreter's, not the service's: the
    handler only composes these operations. *)
Class PyFloat := {
  float : Type;
  float_of_int : Z -> float;          (* float(n) *)
  int_truediv : Z -> Z -> float;      (* a / b on ints, b <> 0 *)
  float_sub : float -> float -> float;
  float_mul : float -> float -> float;
  float_round : float -> Z -> float;  (* round(x, ndigits) *)
  float_str : float -> string;        (* str(x) *)
}.

Section Numbers.
Context {F : PyFloat}.

(** A value that is an [int] or a [float]. *)
Inductive number :=
| Int (n : Z)
| Float (x : float).

Definition str_number (v : number) : string :=
  match v with
  | Int n => str_int n
  | Float x => float_str x
  end.

(** What a pydantic [float] field keeps of a number. *)
Definition as_float (v : number) : float :=
  match v with
  | Int n => float_of_int n
  | Float x => x
  end.

(** [a / b] on ints: true division, [ZeroDivisionError] on [b = 0]. *)
Definition truediv (a b : Z) : result float :=
  if b =? 0 then Raise (PyExc "ZeroDivisionError" "division by zero")
  else Ok (int_truediv a b).

(** The formula of the ratio, taken alone. *)
Definition ratio_formula (compressed_size original_size : Z) : float :=
  float_round
    (float_mul
       (float_sub (float_of_int 1)
                  (int_truediv compressed_size original_size))
       (float_of_int 100))
    2.

(** [round((1 - compressed_size / original_size) * 100, 2)
     if original_size > 0 else 0] *)
Definition compression_ratio (compressed_size original_size : Z)
  : result number :=
  if original_size >? 0 then
    (q <- truediv compressed_size original_size ;;
     Ok (Float (float_round
                  (float_mul (float_sub (float_of_int 1) q)
                             (float_of_int 100))
                  2)))%result
  else Ok (Int 0).

End Numbers.

(** ** Pillow *)

(** The imaging library, as the handler uses it.  Every call may
    raise: [Image.open] on bytes it cannot identify, the others when
    the lazily loaded pixel data turn out broken. *)
Class PIL := {
  Image : Type;
  Image_open : bytes -> result Image;
  Image_mode : Image -> string;
  Image_format : Image -> option string;
  Image_size : Image -> Z * Z;
  (* Image.new(mode, size, color) *)
  Image_new : string -> Z * Z -> Z * Z * Z -> result Image;
  (* image.convert(mode) *)
  Image_convert : Image -> string -> result Image;
  (* image.split() *)
  Image_split : Image -> result (list Image);
  (* background.paste(image, mask=mask): the background afterwards *)
  Image_paste : Image -> Image -> option Image -> result Image;
  (* image.save(output, format=..., quality=..., method=...): the bytes
     written to [output] *)
  Image_save : Image -> string -> Z -> Z -> result bytes;
}.

(** What Pillow documents of these calls, as far as the handler
    relies on it. *)
Class PIL_laws (P : PIL) : Prop := {
  open_empty : exists e, Image_open [] = Raise e;
  new_mode : forall m sz c i, Image_new m sz c = Ok i -> Image_mode i = m;
  new_size : forall m sz c i, Image_new m sz c = Ok i -> Image_size i = sz;
  convert_mode : forall i m j, Image_convert i m = Ok j -> Image_mode j = m;
  convert_size : forall i m j,
      Image_convert i m = Ok j -> Image_size j = Image_size i;
  paste_mode : forall b i k b',
      Image_paste b i k = Ok b' -> Image_mode b' = Image_mode b;
  paste_size : forall b i k b',
      Image_paste b i k = Ok b' -> Image_size b' = Image_size b;
}.

(** Pillow's table of modes and their bands ([Image.getbands]). *)
Definition getbands (mode : string) : list string :=
  if String.eqb mode "1" then ["1"]
  else if String.eqb mode "L" then ["L"]
  else if String.eqb mode "I" then ["I"]
  else if String.eqb mode "F" then ["F"]
  else if String.eqb mode "P" then ["P"]
  else if String.eqb mode "RGB" then ["R"; "G"; "B"]
  else if String.eqb mode "RGBX" then ["R"; "G"; "B"; "X"]
  else if String.eqb mode "RGBA" then ["R"; "G"; "B"; "A"]
  else if String.eqb mode "CMYK" then ["C"; "M"; "Y"; "K"]
  else if String.eqb mode "YCbCr" then ["Y"; "Cb"; "Cr"]
  else if String.eqb mode "LAB" then ["L"; "A"; "B"]
  else if String.eqb mode "HSV" then ["H"; "S"; "V"]
  else if String.eqb mode "RGBa" then ["R"; "G"; "B"; "a"]
  else if String.eqb mode "LA" then ["L"; "A"]
  else if String.eqb mode "La" then ["L"; "a"]
  else if String.eqb mode "PA" then ["P"; "A"]
  else if String.eqb mode "I;16" then ["I"]
  else [].

(** The mode has an alpha band (straight or premultiplied).  [LAB] has
    a band called ["A"] that is a colour axis, not alpha. *)
Definition carries_alpha (mode : string) : bool :=
  negb (String.eqb mode "LAB")
  && (str_in "A" (getbands mode) || str_in "a" (getbands mode)).

(** The mode stores palette indices. *)
Definition palette_indexed (mode : string) : bool :=
  str_in "P" (getbands mode).

Section Normalizer.
Context {P : PIL}.

Definition white : Z * Z * Z := (255, 255, 255).

(** The mask argument of the paste:
    [image.split()[-1] if image.mode in ('RGBA', 'LA') else None] *)
Definition paste_mask (image : Image) : result (option Image) :=
  if str_in (Image_mode image) ["RGBA"; "LA"] then
    (bands <- Image_split image ;;
     alpha <- last_item bands ;;
     Ok (Some alpha))%result
  else Ok None.

(** The branch for modes ['RGBA'], ['LA'] and ['P']. *)
Definition composite_on_white (image : Image) : result Image :=
  (background <- Image_new "RGB" (Image_size image) white ;;
   image' <- (if String.eqb (Image_mode image) "P"
              then Image_convert image "RGBA" else Ok image) ;;
   mask <- paste_mask image' ;;
   Image_paste background image' mask)%result.

(** Lines 74-81 of [compress_image]. *)
Definition normalize (image : Image) : result Image :=
  if str_in (Image_mode image) ["RGBA"; "LA"; "P"] then
    composite_on_white image
  else if negb (String.eqb (Image_mode image) "RGB") then
    Image_convert image "RGB"
  else Ok image.

End Normalizer.


(** ** [datetime] in UTC and its ISO-8601 text *)

(** An aware [datetime] whose [tzinfo] is [timezone.utc]. *)
Record datetime := {
  year : N; month : N; day : N;
  hour : N; minute : N; second : N; microsecond : N
}.

(** The Gregorian calendar of [datetime]. *)
Definition is_leap (y : N) : bool :=
  ((y mod 4 =? 0) && (negb (y mod 100 =? 0) || (y mod 400 =? 0)))%N.

Definition days_in_month (y m : N) : N :=
  (if m =? 2 then (if is_leap y then 29 else 28)
   else if (m =? 4) || (m =? 6) || (m =? 9) || (m =? 11) then 30
   else 31)%N.

(** The ranges [datetime] enforces on its fields. *)
Definition valid_datetime (d : datetime) : bool :=
  ((1 <=? year d) && (year d <=? 9999)
   && (1 <=? month d) && (month d <=? 12)
   && (1 <=? day d) && (day d <=? days_in_month (year d) (month d))
   && (hour d <=? 23) && (minute d <=? 59) && (second d <=? 59)
   && (microsecond d <=? 999999))%N.

Definition digit_char (d : N) : ascii := ascii_of_N (48 + d).

(** ["%0wd" % n]: the [w] low decimal digits of [n], most significant
    first (all of [n] when [n < 10 ^ w]). *)
Fixpoint zfill (w : nat) (n : N) : string :=
  match w with
  | O => EmptyString
  | S w' =>
      String (digit_char ((n / 10 ^ N.of_nat w') mod 10)%N) (zfill w' n)
  end.

(** [d.isoformat()] for an aware UTC [datetime]: the fraction is left
    out when the microsecond is 0. *)
Definition isoformat (d : datetime) : string :=
  zfill 4 (year d) ++ "-" ++ zfill 2 (month d) ++ "-" ++ zfill 2 (day d)
  ++ "T" ++ zfill 2 (hour d) ++ ":" ++ zfill 2 (minute d)
  ++ ":" ++ zfill 2 (second d)
  ++ (if (microsecond d =? 0)%N then "" else "." ++ zfill 6 (microsecond d))
  ++ "+00:00".

Definition is_digit (c : ascii) : bool :=
  ((48 <=? N_of_ascii c) && (N_of_ascii c <=? 57))%N.

(** Reads exactly [w] decimal digits. *)
Fixpoint read_digits (w : nat) (acc : N) (s : string) : option (N * string) :=
  match w with
  | O => Some (acc, s)
  | S w' =>
      match s with
      | String c s' =>
          if is_digit c
          then read_digits w' (10 * acc + (N_of_ascii c - 48))%N s'
          else None
      | EmptyString => None
      end
  end.

(** Reads the character [c]. *)
Definition expect (c : ascii) (s : string) : option string :=
  match s with
  | String c' s' => if Ascii.eqb c c' then Some s' else None
  | EmptyString => None
  end.

Definition obind {A B} (o : option A) (k : A -> option B) : option B :=
  match o with
  | Some a => k a
  | None => None
  end.

(** The optional fraction and the offset of a UTC timestamp. *)
Definition read_fraction (s : string) : option N :=
  match s with
  | String c s' =>
      if Ascii.eqb c "."%char then
        obind (read_digits 6 0%N s') (fun '(us, rest) =>
        if String.eqb rest "+00:00" then Some us else None)
      else if String.eqb s "+00:00" then Some 0%N else None
  | EmptyString => None
  end.

Definition parse_isoformat (s : string) : option datetime :=
  obind (read_digits 4 0%N s) (fun '(y, s) =>
  obind (expect "-" s) (fun s =>
  obind (read_digits 2 0%N s) (fun '(mo, s) =>
  obind (expect "-" s) (fun s =>
  obind (read_digits 2 0%N s) (fun '(d, s) =>
  obind (expect "T" s) (fun s =>
  obind (read_digits 2 0%N s) (fun '(h, s) =>
  obind (expect ":" s) (fun s =>
  obind (read_digits 2 0%N s) (fun '(mi, s) =>
  obind (expect ":" s) (fun s =>
  obind (read_digits 2 0%N s) (fun '(se, s) =>
  obind (read_fraction s) (fun us =>
  let d := {| year := y; month := mo; day := d; hour := h;
              minute := mi; second := se; microsecond := us |} in
  if valid_datetime d then Some d else None)))))))))))).

(** [datetime.fromisoformat(s)] on the texts [isoformat] writes for
    UTC instants, which is all the service stores.  On such a text it
    is Python's function.  Python parses further texts (another
    offset or none, a [Z], another separator), some to datetimes this
    type has no value for; here they raise, so what this function
    does on a text the service did not write is not Python's, and no
    statement below rests on it. *)
Definition fromisoformat (s : string) : result datetime :=
  match parse_isoformat s with
  | Some d => Ok d
  | None =>
      Raise (PyExc "ValueError" ("Invalid isoformat string: '" ++ s ++ "'"))
  end.

(** Chronological comparison of two instants, field by field. *)
Definition and_then (c k : comparison) : comparison :=
  match c with
  | Eq => k
  | _ => c
  end.

Definition datetime_compare (a b : datetime) : comparison :=
  and_then (N.compare (year a) (year b))
  (and_then (N.compare (month a) (month b))
  (and_then (N.compare (day a) (day b))
  (and_then (N.compare (hour a) (hour b))
  (and_then (N.compare (minute a) (minute b))
  (and_then (N.compare (second a) (second b))
            (N.compare (microsecond a) (microsecond b))))))).

(** The instant as one number: the fields as digits in mixed radix. *)
Definition instant (d : datetime) : N :=
  ((((((year d * 100 + month d) * 100 + day d) * 100 + hour d) * 100
      + minute d) * 100 + second d) * 1000000 + microsecond d)%N.

(** ** The persisted collection *)

(** A [timestamp] field as BSON holds it: text or a date. *)
Inductive bson_time :=
| TsStr (s : string)
| TsDate (d : datetime).

(** MongoDB's comparison order: every string sorts before every date;
    strings compare byte by byte, dates chronologically. *)
Definition bson_compare (a b : bson_time) : comparison :=
  match a, b with
  | TsStr s, TsStr t => String.compare s t
  | TsStr _, TsDate _ => Lt
  | TsDate _, TsStr _ => Gt
  | TsDate d, TsDate e => datetime_compare d e
  end.

Section Store.
Context {F : PyFloat}.

(** The model [CompressionStats]. *)
Record CompressionStats := {
  id : string;
  original_filename : string;
  original_size : Z;
  compressed_size : Z;
  original_format : string;
  compression_ratio_of : float;
  timestamp : datetime
}.

(** A document of [db.compression_stats]. *)
Record document := {
  doc_oid : string;                 (* _id *)
  doc_id : string;
  doc_original_filename : string;
  doc_original_size : Z;
  doc_compressed_size : Z;
  doc_original_format : string;
  doc_compression_ratio : float;
  doc_timestamp : bson_time
}.

(** A document without its [_id], as [find({}, {"_id": 0})] yields it. *)
Record stat := {
  stat_id : string;
  stat_original_filename : string;
  stat_original_size : Z;
  stat_compressed_size : Z;
  stat_original_format : string;
  stat_compression_ratio : float;
  stat_timestamp : bson_time
}.

Definition project (d : document) : stat :=
  {| stat_id := doc_id d;
     stat_original_filename := doc_original_filename d;
     stat_original_size := doc_original_size d;
     stat_compressed_size := doc_compressed_size d;
     stat_original_format := doc_original_format d;
     stat_compression_ratio := doc_compression_ratio d;
     stat_timestamp := doc_timestamp d |}.

(** [a] may stand before [b] in a descending sort on [timestamp]. *)
Definition newer_or_same (a b : document) : Prop :=
  bson_compare (doc_timestamp a) (doc_timestamp b) <> Lt.

Definition newer_or_sameb (a b : document) : bool :=
  match bson_compare (doc_timestamp a) (doc_timestamp b) with
  | Lt => false
  | _ => true
  end.

(** [cursor.sort("timestamp", -1)]: the server returns the documents in
    some descending order; which one among equal keys is its choice. *)
Class Cursor := {
  sort_timestamp_desc : list document -> list document;
}.

Class Cursor_laws (C : Cursor) : Prop := {
  sort_perm : forall l, Permutation (sort_timestamp_desc l) l;
  sort_sorted : forall l, Sorted newer_or_same (sort_timestamp_desc l);
}.

(** One server that satisfies the laws: insertion sort. *)
Fixpoint insert_desc (d : document) (l : list document) : list document :=
  match l with
  | [] => [d]
  | x :: l' =>
      if newer_or_sameb d x then d :: l else x :: insert_desc d l'
  end.

Definition insertion_sort_desc (l : list document) : list document :=
  fold_right insert_desc [] l.

Definition insertion_cursor : Cursor :=
  {| sort_timestamp_desc := insertion_sort_desc |}.

(** The state the handlers act on. *)
Record state := {
  db : list document;        (* db.compression_stats, in insertion order *)
  log : list string          (* what [logger.error] wrote *)
}.

(** Computations that read and write the state and may raise; a raise
    keeps the state it was raised in. *)
Definition M (A : Type) : Type := state -> result A * state.

Definition ret {A} (a : A) : M A := fun st => (Ok a, st).

Definition raise {A} (e : exn) : M A := fun st => (Raise e, st).

Definition bind {A B} (m : M A) (k : A -> M B) : M B :=
  fun st =>
    match m st with
    | (Ok a, st') => k a st'
    | (Raise e, st') => (Raise e, st')
    end.

(** A call that does not touch the state. *)
Definition lift {A} (r : result A) : M A := fun st => (r, st).

End Store.

Declare Scope handler_scope.
Delimit Scope handler_scope with handler.
Notation "x <- m ;; k" := (bind m (fun x => k))
  (at level 61, m at next level, right associativity) : handler_scope.

(** ** [str] and the latin-1 codec *)

(** A [str] is held as its UTF-8 bytes: comparing, joining, cutting at
    a slash or a dot are the same on the bytes as on the characters.
    The characters are needed where a text is encoded: these are the
    code points of well-formed UTF-8. *)
Fixpoint code_points (pending : nat) (acc : N) (s : string) : list N :=
  match s with
  | EmptyString => []
  | String c s' =>
      let b := N_of_ascii c in
      match pending with
      | O =>
          if (b <? 128)%N then b :: code_points 0 0%N s'
          else if (b <? 224)%N then code_points 1 (b mod 32)%N s'
          else if (b <? 240)%N then code_points 2 (b mod 16)%N s'
          else code_points 3 (b mod 8)%N s'
      | S O => (acc * 64 + b mod 64)%N :: code_points 0 0%N s'
      | S n => code_points n (acc * 64 + b mod 64)%N s'
      end
  end.

Definition str_points (s : string) : list N := code_points 0 0%N s.

(** The length of the run of characters at or above [limit] that
    starts the list. *)
Fixpoint run_above (limit : N) (cps : list N) : N :=
  match cps with
  | c :: cs => if (limit <=? c)%N then (1 + run_above limit cs)%N else 0%N
  | [] => 0%N
  end.

(** The first character at or above [limit]: its position, itself and
    the length of the run it starts. *)
Fixpoint find_above (limit pos : N) (cps : list N) : option (N * N * N) :=
  match cps with
  | [] => None
  | c :: cs =>
      if (limit <=? c)%N then Some (pos, c, run_above limit cps)
      else find_above limit (pos + 1)%N cs
  end.

Definition hex_char (d : N) : ascii :=
  if (d <? 10)%N then ascii_of_N (48 + d) else ascii_of_N (87 + d).

(** ["%0wx" % n] *)
Fixpoint hex_fill (w : nat) (n : N) : string :=
  match w with
  | O => EmptyString
  | S w' => String (hex_char ((n / 16 ^ N.of_nat w') mod 16)%N) (hex_fill w' n)
  end.

(** [str(UnicodeEncodeError('latin-1', text, pos, pos + run, reason))]
    for a character outside latin-1. *)
Definition latin1_error (pos c run : N) : exn :=
  PyExc "UnicodeEncodeError"
    (if (run =? 1)%N then
       "'latin-1' codec can't encode character '"
       ++ (if (c <=? 65535)%N then "\u" ++ hex_fill 4 c
           else "\U" ++ hex_fill 8 c)
       ++ "' in position " ++ str_int (Z.of_N pos)
       ++ ": ordinal not in range(256)"
     else
       "'latin-1' codec can't encode characters in position "
       ++ str_int (Z.of_N pos) ++ "-" ++ str_int (Z.of_N (pos + run - 1))
       ++ ": ordinal not in range(256)").

Definition byte_of_point (c : N) : Init.Byte.byte :=
  match Byte.of_N c with
  | Some b => b
  | None => Byte.x00
  end.

(** [s.encode("latin-1")]: one byte per character, a
    [UnicodeEncodeError] when a character is above U+00FF. *)
Definition encode_latin1 (s : string) : result bytes :=
  match find_above 256 0 (str_points s) with
  | Some (pos, c, run) => Raise (latin1_error pos c run)
  | None => Ok (map byte_of_point (str_points s))
  end.

(** [s.lower()] on the ASCII letters, which is all a header name
    here has. *)
Fixpoint str_lower (s : string) : string :=
  match s with
  | EmptyString => EmptyString
  | String c s' =>
      let n := N_of_ascii c in
      String (if ((65 <=? n) && (n <=? 90))%N then ascii_of_N (n + 32) else c)
             (str_lower s')
  end.

(** Starlette's [Response.init_headers]: every name, lowered, and
    every value is encoded to latin-1, in the order of the dict. *)
Fixpoint init_headers (hs : list (string * string))
  : result (list (bytes * bytes)) :=
  match hs with
  | [] => Ok []
  | (k, v) :: hs' =>
      (k' <- encode_latin1 (str_lower k) ;;
       v' <- encode_latin1 v ;;
       raw <- init_headers hs' ;;
       Ok ((k', v') :: raw))%result
  end.

(** ** The handlers *)

(** The uploaded file: [file.filename] and what [await file.read()]
    gives.  Starlette types the name [Optional[str]]; the file a
    request brings always has one (see [post_compress]), [None] is
    what a direct call of the handler can pass. *)
Record UploadFile := {
  filename : option string;
  read : result bytes
}.

(** What the surroundings decide during one request: the identifier
    [uuid.uuid4()] draws, the clock, the [_id] the driver assigns, and
    whether [insert_one] fails. *)
Record effects := {
  uuid4 : string;
  utcnow : datetime;
  new_object_id : string;
  insert_failure : option exn
}.

(** The response of a successful compress. *)
Record StreamingResponse := {
  status_code : Z;
  media_type : string;
  headers : list (string * string);
  body : bytes
}.

(** How a request ends: a response, or [HTTPException(status, detail)],
    which FastAPI renders as that status with the JSON body
    [{"detail": detail}]. *)
Inductive outcome (A : Type) : Type :=
| Response (r : A)
| HTTPException (status : Z) (detail : string).
Arguments Response {A} r.
Arguments HTTPException {A} status detail.

(** The JSON body FastAPI sends for an [HTTPException]: one object
    with the key [detail]. *)
Definition error_body {A} (o : outcome A) : option (list (string * string)) :=
  match o with
  | Response _ => None
  | HTTPException _ detail => Some [("detail", detail)]
  end.

(** A field of a multipart form as Starlette's parser leaves it: a
    part whose [Content-Disposition] has a [filename] is an
    [UploadFile] of that name, any other part is a [str]. *)
Inductive form_field :=
| TextField (value : string)
| FilePart (name : string) (content : result bytes).



(** [headers[name]] *)
Fixpoint header (name : string) (hs : list (string * string)) : option string :=
  match hs with
  | [] => None
  | (k, v) :: hs' => if String.eqb k name then Some v else header name hs'
  end.

Section Handlers.
Context {F : PyFloat} {P : PIL} {C : Cursor}.

(** [image.format or "UNKNOWN"] *)
Definition format_or_unknown (image : Image) : string :=
  match Image_format image with
  | Some f => if String.eqb f "" then "UNKNOWN" else f
  | None => "UNKNOWN"
  end.

(** The error pydantic raises when [original_filename] is not a string. *)
Definition filename_not_a_string : exn :=
  PyExc "ValidationError"
    "1 validation error for CompressionStats: original_filename: Input should be a valid string".

(** [CompressionStats(original_filename=..., ...)]: pydantic checks
    the arguments against the declared types, then fills [id] and
    [timestamp] from their factories.  [file.filename] is the one
    argument that can be of a wrong type: it is [None] when the upload
    names no file. *)
Definition CompressionStats_init (w : effects)
    (original_filename : option string)
    (original_size compressed_size : Z) (original_format : string)
    (compression_ratio : number) : result CompressionStats :=
  match original_filename with
  | None => Raise filename_not_a_string
  | Some name =>
      Ok {| id := uuid4 w;
            original_filename := name;
            original_size := original_size;
            compressed_size := compressed_size;
            original_format := original_format;
            compression_ratio_of := as_float compression_ratio;
            timestamp := utcnow w |}
  end.

(** [stats.model_dump()] with [timestamp] replaced by its
    [isoformat()], and the [_id] that [insert_one] adds. *)
Definition stats_doc (w : effects) (stats : CompressionStats) : document :=
  {| doc_oid := new_object_id w;
     doc_id := id stats;
     doc_original_filename := original_filename stats;
     doc_original_size := original_size stats;
     doc_compressed_size := compressed_size stats;
     doc_original_format := original_format stats;
     doc_compression_ratio := compression_ratio_of stats;
     doc_timestamp := TsStr (isoformat (timestamp stats)) |}.

(** [await db.compression_stats.insert_one(doc)] *)
Definition insert_one (w : effects) (doc : document) : M unit :=
  fun st =>
    match insert_failure w with
    | Some e => (Raise e, st)
    | None => (Ok tt, {| db := db st ++ [doc]; log := log st |})
    end.

(** [logger.error(msg)] *)
Definition logger_error (msg : string) : M unit :=
  fun st => (Ok tt, {| db := db st; log := log st ++ [msg] |}).

(** [Path(file.filename).stem]; [Path(None)] is a [TypeError]. *)
Definition filename_stem (file : UploadFile) : result string :=
  match filename file with
  | Some name => Ok (Pathlib.stem name)
  | None =>
      Raise (PyExc "TypeError"
               "expected str, bytes or os.PathLike object, not NoneType")
  end.

(** The body of the [try] in [compress_image].  Its last statement
    builds the [StreamingResponse], whose constructor encodes the
    headers: that too happens inside the [try], after the insert. *)
Definition compress_try (file : UploadFile) (w : effects)
  : M StreamingResponse :=
  (contents <- lift (read file) ;;
   let original_size := len contents in
   image <- lift (Image_open contents) ;;
   let original_format := format_or_unknown image in
   image <- lift (normalize image) ;;
   output <- lift (Image_save image "WEBP" 95 6) ;;
   let compressed_size := len output in
   ratio <- lift (compression_ratio compressed_size original_size) ;;
   stats <- lift (CompressionStats_init w (filename file) original_size
                    compressed_size original_format ratio) ;;
   _ <- insert_one w (stats_doc w stats) ;;
   filename_without_ext <- lift (filename_stem file) ;;
   let response_headers :=
     [("Content-Disposition",
        "attachment; filename=" ++ dquote ++ filename_without_ext
        ++ ".webp" ++ dquote);
      ("X-Original-Size", str_int original_size);
      ("X-Compressed-Size", str_int compressed_size);
      ("X-Compression-Ratio", str_number ratio);
      ("X-Original-Format", original_format)] in
   _ <- lift (init_headers response_headers) ;;
   ret {| status_code := 200;
          media_type := "image/webp";
          headers := response_headers;
          body := output |})%handler.

(** [compress_image]: the [try] and its [except Exception as e]. *)
Definition compress_image (file : UploadFile) (w : effects)
  : state -> outcome StreamingResponse * state :=
  fun st =>
    match compress_try file w st with
    | (Ok r, st') => (Response r, st')
    | (Raise e, st') =>
        let (_, st'') :=
          logger_error ("Error compressing image: " ++ exn_str e) st' in
        (HTTPException 400 ("Error processing image: " ++ exn_str e), st'')
    end.


(** The loop of [get_compression_stats] on one document: a textual
    timestamp is parsed, a date is kept. *)
Definition parse_timestamp (t : bson_time) : result datetime :=
  match t with
  | TsStr s => fromisoformat s
  | TsDate d => Ok d
  end.

(** One entry of the response, validated against [CompressionStats]. *)
Definition to_stats (s : stat) : result CompressionStats :=
  (t <- parse_timestamp (stat_timestamp s) ;;
   Ok {| id := stat_id s;
         original_filename := stat_original_filename s;
         original_size := stat_original_size s;
         compressed_size := stat_compressed_size s;
         original_format := stat_original_format s;
         compression_ratio_of := stat_compression_ratio s;
         timestamp := t |})%result.

Fixpoint mapM {A B} (f : A -> result B) (l : list A) : result (list B) :=
  match l with
  | [] => Ok []
  | x :: l' =>
      (y <- f x ;; ys <- mapM f l' ;; Ok (y :: ys))%result
  end.

(** [find({}, {"_id": 0}).sort("timestamp", -1).to_list(100)] *)
Definition find_recent (docs : list document) : list stat :=
  map project (firstn 100 (sort_timestamp_desc docs)).

(** [get_compression_stats]: it has no [try]; an exception leaves the
    handler as it is. *)
Definition get_compression_stats : M (list CompressionStats) :=
  fun st => (mapM to_stats (find_recent (db st)), st).

End Handlers.

(** ** Reference collaborators

    Instances of the interfaces that keep what was asked of them: an
    image is the history of the calls that made it, a float is the
    expression that computes it.  On them, which path the handler took
    can be read off its result. *)

Module Reference.

(** An image as the calls that produced it. *)
Inductive sym_image :=
| Decoded (mode : string) (fmt : option string) (size : Z * Z) (data : bytes)
| Blank (mode : string) (size : Z * Z) (color : Z * Z * Z)
| Converted (i : sym_image) (mode : string)
| Band (i : sym_image) (k : nat)
| Pasted (background i : sym_image)
| PastedMasked (background i mask : sym_image).

Fixpoint sym_mode (i : sym_image) : string :=
  match i with
  | Decoded m _ _ _ => m
  | Blank m _ _ => m
  | Converted _ m => m
  | Band _ _ => "L"
  | Pasted b _ => sym_mode b
  | PastedMasked b _ _ => sym_mode b
  end.

Fixpoint sym_size (i : sym_image) : Z * Z :=
  match i with
  | Decoded _ _ sz _ => sz
  | Blank _ sz _ => sz
  | Converted j _ => sym_size j
  | Band j _ => sym_size j
  | Pasted b _ => sym_size b
  | PastedMasked b _ _ => sym_size b
  end.

Definition sym_format (i : sym_image) : option string :=
  match i with
  | Decoded _ f _ _ => f
  | _ => None
  end.

Definition sym_split (i : sym_image) : list sym_image :=
  map (Band i) (seq 0 (List.length (getbands (sym_mode i)))).

(** A miniature container format: one byte for the kind of image, one
    for the width, one for the height, then the pixel data. *)
Definition sym_kind (tag : Init.Byte.byte) : option (string * option string) :=
  match Byte.to_nat tag with
  | 0%nat => Some ("RGB", Some "JPEG")
  | 1%nat => Some ("RGBA", Some "PNG")
  | 2%nat => Some ("LA", Some "PNG")
  | 3%nat => Some ("P", Some "GIF")
  | 4%nat => Some ("L", Some "JPEG")
  | 5%nat => Some ("PA", Some "TIFF")
  | 6%nat => Some ("CMYK", Some "JPEG")
  | 7%nat => Some ("RGB", None)
  | _ => None
  end.

Definition unidentified : exn :=
  PyExc "UnidentifiedImageError" "cannot identify image file".

Definition sym_open (b : bytes) : result sym_image :=
  match b with
  | tag :: w :: h :: data =>
      match sym_kind tag with
      | Some (m, f) =>
          Ok (Decoded m f (Z.of_nat (Byte.to_nat w), Z.of_nat (Byte.to_nat h))
                      data)
      | None => Raise unidentified
      end
  | _ => Raise unidentified
  end.

(** The encoder of the miniature: a four-byte signature, then one byte
    per call that made the image. *)
Fixpoint sym_depth (i : sym_image) : nat :=
  match i with
  | Decoded _ _ _ _ => 1
  | Blank _ _ _ => 1
  | Converted j _ => S (sym_depth j)
  | Band j _ => S (sym_depth j)
  | Pasted b j => S (sym_depth b + sym_depth j)
  | PastedMasked b j _ => S (sym_depth b + sym_depth j)
  end.

Definition sym_save (i : sym_image) (fmt : string) (quality method : Z)
  : result bytes :=
  Ok ([Byte.x52; Byte.x49; Byte.x46; Byte.x46]
        ++ repeat Byte.x00 (sym_depth i))%list.

Definition pil : PIL :=
  {| Image := sym_image;
     Image_open := sym_open;
     Image_mode := sym_mode;
     Image_format := sym_format;
     Image_size := sym_size;
     Image_new := fun m sz c => Ok (Blank m sz c);
     Image_convert := fun i m => Ok (Converted i m);
     Image_split := fun i => Ok (sym_split i);
     Image_paste := fun b i k =>
       match k with
       | Some mask => Ok (PastedMasked b i mask)
       | None => Ok (Pasted b i)
       end;
     Image_save := sym_save |}.

(** Two decoded pictures: one RGBA, one of mode PA (a palette with an
    alpha band, as Pillow opens a TIFF that has both). *)
Definition rgba_png : sym_image := Decoded "RGBA" (Some "PNG") (2, 1) [].

Definition pa_tiff : sym_image := Decoded "PA" (Some "TIFF") (1, 1) [].

(** A float as the expression that computes it. *)
Inductive fterm :=
| FInt (n : Z)
| FDiv (a b : Z)
| FSub (x y : fterm)
| FMul (x y : fterm)
| FRound (x : fterm) (ndigits : Z).

Fixpoint fterm_str (x : fterm) : string :=
  match x with
  | FInt n => str_int n
  | FDiv a b => str_int a ++ " / " ++ str_int b
  | FSub x y => "(" ++ fterm_str x ++ " - " ++ fterm_str y ++ ")"
  | FMul x y => fterm_str x ++ " * " ++ fterm_str y
  | FRound x n => "round(" ++ fterm_str x ++ ", " ++ str_int n ++ ")"
  end.

Definition pyfloat : PyFloat :=
  {| float := fterm;
     float_of_int := FInt;
     int_truediv := FDiv;
     float_sub := FSub;
     float_mul := FMul;
     float_round := FRound;
     float_str := fterm_str |}.

(** Sample requests and surroundings. *)
Definition bytes_of (l : list nat) : bytes :=
  map (fun n => match Byte.of_nat n with Some b => b | None => Byte.x00 end) l.

Definition noon : datetime :=
  {| year := 2024; month := 5; day := 17;
     hour := 12; minute := 0; second := 0; microsecond := 0 |}.

Definition quiet (now : datetime) : effects :=
  {| uuid4 := "0b9f6c1e-8f0a-4a57-9c57-6c1f0d1b2a3c";
     utcnow := now;
     new_object_id := "6647445a9d3e2b0a1c4f5e6d";
     insert_failure := None |}.


(** An RGBA picture of 2 by 1 pixels, uploaded as [photo.png]. *)
Definition photo_png : UploadFile :=
  {| filename := Some "holiday/photo.png";
     read := Ok (bytes_of [1; 2; 1; 255; 0; 0; 255; 0; 0; 0; 0])%nat |}.

(** A text file. *)
Definition notes_txt : UploadFile :=
  {| filename := Some "notes.txt";
     read := Ok (bytes_of [104; 101; 108; 108; 111])%nat |}.


Definition empty_state : @state pyfloat := {| db := []; log := [] |}.

(** The record of an earlier request, [n] microseconds after noon. *)
Definition earlier (n : nat) : @CompressionStats pyfloat :=
  {| id := "5f0c2b0e-1d67-4c55-9a43-0c5a3c1e7b10";
     original_filename := "earlier.jpg";
     original_size := 2048;
     compressed_size := 1024;
     original_format := "JPEG";
     compression_ratio_of := @ratio_formula pyfloat 1024 2048;
     timestamp := {| year := 2024; month := 5; day := 17;
                     hour := 12; minute := 0; second := 0;
                     microsecond := N.of_nat n |} |}.

Definition earlier_doc (n : nat) : document :=
  {| doc_oid := "6647445a9d3e2b0a1c4f5e00";
     doc_id := id (earlier n);
     doc_original_filename := original_filename (earlier n);
     doc_original_size := original_size (earlier n);
     doc_compressed_size := compressed_size (earlier n);
     doc_original_format := original_format (earlier n);
     doc_compression_ratio := compression_ratio_of (earlier n);
     doc_timestamp := TsStr (isoformat (timestamp (earlier n))) |}.

(** A collection of 101 documents, and one of three in no order. *)
Definition crowded : @state pyfloat :=
  {| db := map earlier_doc (seq 0 101); log := [] |}.

Definition shuffled : @state pyfloat :=
  {| db := [earlier_doc 5; earlier_doc 0; earlier_doc 9]; log := [] |}.

Definition evening : datetime :=
  {| year := 2024; month := 5; day := 17;
     hour := 19; minute := 30; second := 0; microsecond := 0 |}.

End Reference.

(** ** Notions the statements use *)

Section Notions.
Context {F : PyFloat} {P : PIL} {C : Cursor}.


(** The state after [logger.error] has reported [e], the collection
    untouched. *)
Definition logged (st : state) (e : exn) : state :=
  {| db := db st;
     log := log st ++ ["Error compressing image: " ++ exn_str e] |}.

(** [out] is the image composited onto an opaque white canvas of the
    image's dimensions: some paste onto [Image.new('RGB', size, white)]. *)
Definition composited_on_white (image out : Image) : Prop :=
  exists background pasted mask,
    Image_new "RGB" (Image_size image) white = Ok background
    /\ Image_paste background pasted mask = Ok out.

(** The compositing of an image that has an alpha band: a white canvas
    of its size, the image pasted through its last band. *)
Definition paste_through_alpha (image : Image) : result Image :=
  (background <- Image_new "RGB" (Image_size image) white ;;
   bands <- Image_split image ;;
   alpha <- last_item bands ;;
   Image_paste background image (Some alpha))%result.

(** The document was written by [compress_image] for the record [s]:
    same fields, the timestamp as ISO-8601 text. *)
Definition holds (d : document) (s : CompressionStats) : Prop :=
  doc_id d = id s
  /\ doc_original_filename d = original_filename s
  /\ doc_original_size d = original_size s
  /\ doc_compressed_size d = compressed_size s
  /\ doc_original_format d = original_format s
  /\ doc_compression_ratio d = compression_ratio_of s
  /\ doc_timestamp d = TsStr (isoformat (timestamp s))
  /\ valid_datetime (timestamp s) = true.

(** A collection only [compress_image] has written to. *)
Definition service_written (docs : list document) : Prop :=
  Forall (fun d => exists s, holds d s) docs.

(** [a] was created no earlier than [b]. *)
Definition not_older (a b : CompressionStats) : Prop :=
  datetime_compare (timestamp a) (timestamp b) <> Lt.

End Notions.

(** ** Start-up: the environment, the database handle and CORS *)

(** [s.split(sep)] for a one-character separator: the pieces between
    the separators, empty ones included; [''.split(sep)] is [['']]. *)
Fixpoint str_split (sep : ascii) (s : string) : list string :=
  match s with
  | EmptyString => [EmptyString]
  | String c s' =>
      if Ascii.eqb c sep then EmptyString :: str_split sep s'
      else match str_split sep s' with
           | p :: ps => String c p :: ps
           | [] => [String c EmptyString]
           end
  end.

(** [os.environ], and the variables of the [.env] file. *)
Definition environ := string -> option string.

(** [load_dotenv(path)]: the file's variables are added to the
    environment; one the process already has is kept. *)
Definition load_dotenv (dotenv os_environ : environ) : environ :=
  fun key =>
    match os_environ key with
    | Some v => Some v
    | None => dotenv key
    end.

(** [os.environ[key]]; [str(KeyError(key))] is the key in quotes. *)
Definition environ_getitem (env : environ) (key : string) : result string :=
  match env key with
  | Some v => Ok v
  | None => Raise (PyExc "KeyError" ("'" ++ key ++ "'"))
  end.

(** [os.environ.get(key, default)] *)
Definition environ_get (env : environ) (key default : string) : string :=
  match env key with
  | Some v => v
  | None => default
  end.

(** The driver: [AsyncIOMotorClient(url)] and [client[name]]; each may
    reject its argument. *)
Class Motor := {
  MotorClient : Type;
  MotorDatabase : Type;
  AsyncIOMotorClient : string -> result MotorClient;
  client_getitem : MotorClient -> string -> result MotorDatabase;
}.

(** The arguments of [app.add_middleware(CORSMiddleware, ...)]. *)
Record CORSMiddleware := {
  allow_credentials : bool;
  allow_origins : list string;
  allow_methods : list string;
  allow_headers : list string
}.

Section Startup.
Context {Mo : Motor}.

(** What the module holds once it is imported. *)
Record application := {
  client : MotorClient;
  database : MotorDatabase;
  router_prefix : string;
  middleware : CORSMiddleware
}.

(** The statements of the module, in their order: the [.env] file is
    loaded, the client is made from [MONGO_URL], the database is taken
    by [DB_NAME], the router gets its prefix, and the CORS middleware
    is configured from [CORS_ORIGINS]. *)
Definition import_module (dotenv os_environ : environ) : result application :=
  let env := load_dotenv dotenv os_environ in
  (mongo_url <- environ_getitem env "MONGO_URL" ;;
   client <- AsyncIOMotorClient mongo_url ;;
   db_name <- environ_getitem env "DB_NAME" ;;
   db <- client_getitem client db_name ;;
   Ok {| client := client;
         database := db;
         router_prefix := "/api";
         middleware :=
           {| allow_credentials := true;
              allow_origins :=
                str_split "," (environ_get env "CORS_ORIGINS" "*");
              allow_methods := ["*"];
              allow_headers := ["*"] |} |})%result.

End Startup.

(** ** Requests one after another *)

Section Serving.
Context {F : PyFloat} {P : PIL} {C : Cursor}.

(** A request to one of the two routes, with what its surroundings
    decide. *)
Inductive request :=
| PostCompress (file : UploadFile) (w : effects)
| GetStats.

(** The state after the requests have been handled in turn; an
    exception of the list handler leaves the state as it is. *)
Fixpoint serve (reqs : list request) (st : state) : state :=
  match reqs with
  | [] => st
  | PostCompress file w :: reqs' =>
      serve reqs' (snd (compress_image file w st))
  | GetStats :: reqs' => serve reqs' (snd (get_compression_stats st))
  end.

(** The clock of every compress request shows a valid instant. *)
Definition clocks_valid (reqs : list request) : Prop :=
  Forall (fun q => match q with
                   | PostCompress _ w => valid_datetime (utcnow w) = true
                   | GetStats => True
                   end) reqs.

(** No two documents share a timestamp. *)
Definition timestamps_distinct (docs : list document) : Prop :=
  forall a b, In a docs -> In b docs ->
              doc_timestamp a = doc_timestamp b -> a = b.

End Serving.

(** Sample environments. *)
Module Deployment.

Definition lookup (kvs : list (string * string)) : environ :=
  fun key => header key kvs.

Definition dotenv_file : environ :=
  lookup [("MONGO_URL", "mongodb://localhost:27017");
          ("DB_NAME", "test_database");
          ("CORS_ORIGINS", "https://a.example,https://b.example")].

Definition no_variables : environ := fun _ => None.

(** A driver that accepts every URL and every database name. *)
Definition motor : Motor :=
  {| MotorClient := string;
     MotorDatabase := string * string;
     AsyncIOMotorClient := fun url => Ok url;
     client_getitem := fun c name => Ok (c, name) |}.

End Deployment.

(** More sample data: an upload with a name outside latin-1, two
    forms, the shuffled collection in another order, and a morning of
    requests. *)
Module Archive.
Import Reference.



Definition photo_form : string -> option form_field :=
  fun field =>
    if String.eqb field "file"
    then Some (FilePart "holiday/photo.png" (read photo_png))
    else None.

Definition reversed : @state pyfloat :=
  {| db := rev (db shuffled); log := [] |}.

Definition morning : list request :=
  [PostCompress photo_png (quiet noon);
   GetStats;
   PostCompress notes_txt (quiet evening);
   PostCompress photo_png (quiet evening)].

End Archive.

(** * Properties *)

(** ** Decimal numerals *)

(** The text [str] gives for an [int] reads back as that [int]. *)
Lemma int_of_str_int (n : Z) : int_of_str (str_int n) = Some n.
Proof.
  unfold int_of_str, str_int.
  rewrite NilZero.isi.
  - simpl. rewrite DecimalZ.of_to. reflexivity.
  - destruct n; simpl; try discriminate.
    intros H. injection H as H.
    apply (DecimalPos.Unsigned.to_uint_nonnil p H).
  - destruct n; simpl; try discriminate.
    intros H. injection H as H.
    apply (DecimalPos.Unsigned.to_uint_nonnil p H).
Qed.

(** ** The stem of a plain file name *)

Lemma split_slash_plain (s : string) :
  Pathlib.has_char "/" s = false -> Pathlib.split_slash s = [s].
Proof.
  induction s as [|c s IH]; simpl; intros H; [reflexivity|].
  apply orb_false_iff in H. destruct H as [Hc Hs].
  rewrite Hc, (IH Hs). reflexivity.
Qed.

Lemma has_char_app (c : ascii) (s t : string) :
  Pathlib.has_char c (s ++ t) = Pathlib.has_char c s || Pathlib.has_char c t.
Proof.
  induction s as [|a s IH]; simpl; [reflexivity|].
  rewrite IH, orb_assoc. reflexivity.
Qed.

Lemma rfind_dot_none (s : string) :
  Pathlib.has_char "." s = false -> Pathlib.rfind_dot s = None.
Proof.
  induction s as [|c s IH]; simpl; intros H; [reflexivity|].
  apply orb_false_iff in H. destruct H as [Hc Hs].
  rewrite (IH Hs), Hc. reflexivity.
Qed.

Lemma rfind_dot_last (base ext : string) :
  Pathlib.has_char "." ext = false ->
  Pathlib.rfind_dot (base ++ "." ++ ext) = Some (String.length base).
Proof.
  intros H. induction base as [|c base IH]; simpl.
  - rewrite (rfind_dot_none _ H). reflexivity.
  - simpl in IH. rewrite IH. reflexivity.
Qed.

Lemma substring_prefix (s t : string) :
  substring 0 (String.length s) (s ++ t) = s.
Proof.
  induction s as [|c s IH]; simpl.
  - destruct t; reflexivity.
  - rewrite IH. reflexivity.
Qed.

Lemma string_length_app (s t : string) :
  String.length (s ++ t) = (String.length s + String.length t)%nat.
Proof. induction s as [|c s IH]; simpl; [reflexivity|]. rewrite IH. reflexivity. Qed.

Lemma stem_of_plain_name (base ext : string) :
  base <> "" -> ext <> "" ->
  Pathlib.has_char "/" base = false -> Pathlib.has_char "/" ext = false ->
  Pathlib.has_char "." ext = false ->
  Pathlib.stem (base ++ "." ++ ext) = base.
Proof.
  intros Hb He Hsb Hse Hde.
  assert (Hname : Pathlib.name (base ++ "." ++ ext) = base ++ "." ++ ext).
  { unfold Pathlib.name, Pathlib.parts. rewrite split_slash_plain.
    - destruct base as [|c base]; [congruence|].
      destruct ext as [|d ext]; [congruence|].
      cbn [filter append]. 
      replace (String.eqb (String c (base ++ String "." (String d ext))) "") with false by reflexivity.
      replace (String.eqb (String c (base ++ String "." (String d ext))) ".") with false.
      + reflexivity.
      + simpl. destruct (Ascii.eqb c "."); [|reflexivity].
        destruct base; reflexivity.
    - rewrite !has_char_app, Hsb, Hse. reflexivity. }
  unfold Pathlib.stem. rewrite Hname, (rfind_dot_last _ _ Hde).
  rewrite !string_length_app. 
  destruct base as [|c base]; [congruence|].
  destruct ext as [|d ext]; [congruence|].
  replace ((0 <? String.length (String c base))%nat) with true by reflexivity.
  match goal with
  | |- context [(?a <? ?b)%nat] =>
      replace (a <? b)%nat with true
        by (symmetry; apply Nat.ltb_lt; simpl; lia)
  end.
  apply substring_prefix.
Qed.


Section HandlerFacts.
Context {F : PyFloat} {P : PIL} {C : Cursor}.

(** What a successful run of the [try] went through. *)
Lemma compress_try_inv (file : UploadFile) (w : effects) (st st' : state)
    (r : StreamingResponse) :
  compress_try file w st = (Ok r, st') ->
  exists contents image image' ratio name stats,
    read file = Ok contents
    /\ Image_open contents = Ok image
    /\ normalize image = Ok image'
    /\ Image_save image' "WEBP" 95 6 = Ok (body r)
    /\ compression_ratio (len (body r)) (len contents) = Ok ratio
    /\ filename file = Some name
    /\ CompressionStats_init w (Some name) (len contents) (len (body r))
         (format_or_unknown image) ratio = Ok stats
    /\ insert_failure w = None
    /\ st' = {| db := db st ++ [stats_doc w stats]; log := log st |}
    /\ status_code r = 200
    /\ media_type r = "image/webp"
    /\ headers r =
         [("Content-Disposition",
            "attachment; filename=" ++ dquote ++ Pathlib.stem name
            ++ ".webp" ++ dquote);
          ("X-Original-Size", str_int (len contents));
          ("X-Compressed-Size", str_int (len (body r)));
          ("X-Compression-Ratio", str_number ratio);
          ("X-Original-Format", format_or_unknown image)].
Proof.
  unfold compress_try, bind, lift, ret, insert_one, filename_stem.
  intros H.
  destruct (read file) as [contents|e] eqn:Hread; [|discriminate].
  destruct (Image_open contents) as [image|e] eqn:Hopen; [|discriminate].
  destruct (normalize image) as [image'|e] eqn:Hnorm; [|discriminate].
  destruct (Image_save image' "WEBP" 95 6) as [output|e] eqn:Hsave;
    [|discriminate].
  destruct (compression_ratio (len output) (len contents))
    as [ratio|e] eqn:Hratio; [|discriminate].
  destruct (filename file) as [name|] eqn:Hname; [|discriminate].
  cbn -[init_headers] in H.
  destruct (insert_failure w) as [e|] eqn:Hins; [discriminate|].
  match type of H with
  | context [init_headers ?hs] =>
      destruct (init_headers hs) as [raw|e]; [|discriminate]
  end.
  inversion H; subst; clear H. simpl.
  exists contents, image, image', ratio, name.
  eexists. repeat split; eauto.
Qed.

(** The handler answers with a response exactly when the [try]
    completes. *)
Lemma compress_image_response (file : UploadFile) (w : effects)
    (st st' : state) (r : StreamingResponse) :
  compress_image file w st = (Response r, st') ->
  compress_try file w st = (Ok r, st').
Proof.
  unfold compress_image.
  destruct (compress_try file w st) as [[r0|e] st0]; simpl; intros H.
  - inversion H; reflexivity.
  - discriminate.
Qed.

(** An exception in the [try] becomes the 400 and a line of the log. *)
Lemma compress_image_raise (file : UploadFile) (w : effects)
    (st st0 : state) (e : exn) :
  compress_try file w st = (Raise e, st0) ->
  compress_image file w st =
    (HTTPException 400 ("Error processing image: " ++ exn_str e),
     logged st0 e).
Proof.
  unfold compress_image. intros ->. reflexivity.
Qed.

(** The guard of the ratio: above zero the formula, at zero (or below)
    the integer 0. *)
Lemma compression_ratio_positive (c o : Z) :
  0 < o -> compression_ratio c o = Ok (Float (ratio_formula c o)).
Proof.
  intros Ho. unfold compression_ratio, truediv, ratio_formula.
  destruct (o >? 0) eqn:Hgt; [|lia].
  destruct (o =? 0) eqn:Hz; [lia|]. reflexivity.
Qed.

Lemma compression_ratio_zero (c : Z) : compression_ratio c 0 = Ok (Int 0).
Proof. reflexivity. Qed.

End HandlerFacts.

Section Compress.
Context {F : PyFloat} {P : PIL} {C : Cursor}.

(** C1. On a compress request that is answered with a response, the
    ratio written to the collection and the one reported in
    [X-Compression-Ratio] are the value of line 90 at the size of the
    body and the size of the upload.  Above an original size of 0 the
    stored number is round((1 - compressed/original) * 100, 2) and
    the header is its text; at 0 the stored number is float(0), the
    header is "0", and no division takes place (a division by 0 would
    have raised). *)
Theorem ratio_recorded_and_reported (file : UploadFile) (w : effects)
    (st st' : state) (r : StreamingResponse) :
  compress_image file w st = (Response r, st') ->
  exists contents image d,
    read file = Ok contents
    /\ Image_open contents = Ok image
    /\ db st' = (db st ++ [d])%list
    /\ (0 < len contents ->
        let rounded :=
          float_round
            (float_mul
               (float_sub (float_of_int 1)
                          (int_truediv (len (body r)) (len contents)))
               (float_of_int 100))
            2 in
        compression_ratio (len (body r)) (len contents) = Ok (Float rounded)
        /\ doc_compression_ratio d = rounded
        /\ header "X-Compression-Ratio" (headers r) =
           Some (float_str rounded))
    /\ (len contents = 0 ->
        compression_ratio (len (body r)) (len contents) = Ok (Int 0)
        /\ truediv (len (body r)) (len contents) =
           Raise (PyExc "ZeroDivisionError" "division by zero")
        /\ doc_compression_ratio d = float_of_int 0
        /\ header "X-Compression-Ratio" (headers r) = Some "0").
Proof.
  intros H. apply compress_image_response in H.
  apply compress_try_inv in H.
  destruct H as (contents & image & image' & ratio & name & stats & Hread
                 & Hopen & _ & _ & Hratio & _ & Hinit & _ & -> & _ & _ & Hh).
  simpl in Hinit. inversion Hinit; subst stats; clear Hinit.
  exists contents, image. eexists.
  split; [exact Hread|]. split; [exact Hopen|]. split; [reflexivity|].
  split.
  - intros Hpos rounded.
    rewrite (compression_ratio_positive _ _ Hpos) in Hratio.
    inversion Hratio; subst ratio.
    split; [apply compression_ratio_positive; exact Hpos|].
    split; [reflexivity|]. rewrite Hh. reflexivity.
  - intros Hzero. rewrite Hzero in Hratio |- *.
    rewrite compression_ratio_zero in Hratio. inversion Hratio; subst ratio.
    split; [reflexivity|]. split; [reflexivity|].
    split; [reflexivity|]. rewrite Hh. reflexivity.
Qed.


(** C4. When the uploaded bytes are empty, or [Image.open] rejects
    them, the handler ends in [HTTPException(400)] with the detail
    "Error processing image: " followed by the decoder's reason, which
    FastAPI sends as the JSON object with the one key [detail]; there
    is no response, and nothing is written. *)
Theorem undecodable_upload_is_400 {PL : PIL_laws P} (file : UploadFile)
    (w : effects) (st : state) (contents : bytes) :
  read file = Ok contents ->
  contents = [] \/ (exists e, Image_open contents = Raise e) ->
  exists reason,
    Image_open contents = Raise reason
    /\ fst (compress_image file w st) =
       HTTPException 400 ("Error processing image: " ++ exn_str reason)
    /\ error_body (fst (compress_image file w st)) =
       Some [("detail", "Error processing image: " ++ exn_str reason)]
    /\ (forall r, fst (compress_image file w st) <> Response r)
    /\ db (snd (compress_image file w st)) = db st.
Proof.
  intros Hread Hbad.
  assert (Hopen : exists e, Image_open contents = Raise e).
  { destruct Hbad as [-> | He]; [apply open_empty | exact He]. }
  destruct Hopen as [e He]. exists e.
  assert (Hrun : compress_image file w st =
                 (HTTPException 400 ("Error processing image: " ++ exn_str e),
                  logged st e)).
  { apply compress_image_raise.
    unfold compress_try, bind, lift. rewrite Hread, He. reflexivity. }
  rewrite Hrun. simpl. repeat split; auto. intros r Hr. discriminate.
Qed.

(** C8. A response of the compress handler has status 200 and media
    type image/webp; its body is what the WebP encoder wrote for the
    normalized image; Content-Disposition is
    attachment; filename="<stem>.webp" for the stem of the uploaded
    file's name (for a plain name base.ext, that is base.webp);
    X-Original-Size and X-Compressed-Size are the decimal
    lengths of the upload and of the body (read as numbers they are
    those byte counts), X-Compression-Ratio is the
    text of the computed ratio, and X-Original-Format is the decoder's
    format label, or UNKNOWN when it has none. *)
Theorem response_headers_and_body (file : UploadFile) (w : effects)
    (st st' : state) (r : StreamingResponse) :
  compress_image file w st = (Response r, st') ->
  exists contents image image' name ratio,
    read file = Ok contents
    /\ filename file = Some name
    /\ Image_open contents = Ok image
    /\ normalize image = Ok image'
    /\ Image_save image' "WEBP" 95 6 = Ok (body r)
    /\ compression_ratio (len (body r)) (len contents) = Ok ratio
    /\ status_code r = 200
    /\ media_type r = "image/webp"
    /\ header "Content-Disposition" (headers r) =
       Some ("attachment; filename=" ++ dquote ++ Pathlib.stem name
             ++ ".webp" ++ dquote)
    /\ header "X-Original-Size" (headers r) = Some (str_int (len contents))
    /\ header "X-Compressed-Size" (headers r) = Some (str_int (len (body r)))
    /\ header "X-Compression-Ratio" (headers r) = Some (str_number ratio)
    /\ header "X-Original-Format" (headers r) =
       Some (match Image_format image with
             | Some label => if String.eqb label "" then "UNKNOWN" else label
             | None => "UNKNOWN"
             end)
    /\ (forall base ext,
          name = base ++ "." ++ ext ->
          base <> "" -> ext <> "" ->
          Pathlib.has_char "/" base = false ->
          Pathlib.has_char "/" ext = false ->
          Pathlib.has_char "." ext = false ->
          header "Content-Disposition" (headers r) =
          Some ("attachment; filename=" ++ dquote ++ base ++ ".webp"
                ++ dquote))
    /\ (exists original compressed,
          header "X-Original-Size" (headers r) = Some original
          /\ int_of_str original = Some (len contents)
          /\ header "X-Compressed-Size" (headers r) = Some compressed
          /\ int_of_str compressed = Some (len (body r))).
Proof.
  intros H. apply compress_image_response in H.
  apply compress_try_inv in H.
  destruct H as (contents & image & image' & ratio & name & stats & Hread
                 & Hopen & Hnorm & Hsave & Hratio & Hname & _ & _ & _
                 & Hst & Hmt & Hh).
  exists contents, image, image', name, ratio.
  rewrite Hh. repeat split; auto.
  - intros base ext -> Hb He Hsb Hse Hde.
    rewrite (stem_of_plain_name base ext) by assumption. reflexivity.
  - exists (str_int (len contents)), (str_int (len (body r))).
    repeat split; apply int_of_str_int.
Qed.

(** C9. Pillow identifies no image in zero bytes; so a compress
    request that is answered with a response had an upload of positive
    length, its ratio is the float of the formula (never the integer 0
    of the else branch), and the division it took had a divisor other
    than 0. *)
Theorem success_has_positive_size {PL : PIL_laws P} (file : UploadFile)
    (w : effects) (st st' : state) (r : StreamingResponse) :
  compress_image file w st = (Response r, st') ->
  exists contents,
    read file = Ok contents
    /\ 0 < len contents
    /\ truediv (len (body r)) (len contents) =
       Ok (int_truediv (len (body r)) (len contents))
    /\ compression_ratio (len (body r)) (len contents) =
       Ok (Float (ratio_formula (len (body r)) (len contents)))
    /\ header "X-Compression-Ratio" (headers r) =
       Some (float_str (ratio_formula (len (body r)) (len contents))).
Proof.
  intros H. apply compress_image_response in H.
  apply compress_try_inv in H.
  destruct H as (contents & image & image' & ratio & name & stats & Hread
                 & Hopen & _ & _ & Hratio & _ & _ & _ & _ & _ & _ & Hh).
  exists contents.
  assert (Hpos : 0 < len contents).
  { destruct contents as [|b bs].
    - destruct open_empty as [e He]. rewrite He in Hopen. discriminate.
    - unfold len. simpl List.length. lia. }
  rewrite (compression_ratio_positive _ _ Hpos) in Hratio.
  inversion Hratio; subst ratio.
  repeat split; auto.
  - unfold truediv. destruct (len contents =? 0) eqn:Hz; [lia|reflexivity].
  - apply compression_ratio_positive; assumption.
  - rewrite Hh. reflexivity.
Qed.



End Compress.

(** ** The normalizer *)

Lemma reference_pil_laws : PIL_laws Reference.pil.
Proof.
  constructor; simpl.
  - exists Reference.unidentified. reflexivity.
  - intros m sz c i H. inversion H; reflexivity.
  - intros m sz c i H. inversion H; reflexivity.
  - intros i m j H. inversion H; reflexivity.
  - intros i m j H. inversion H; reflexivity.
  - intros b i [k|] b' H; inversion H; reflexivity.
  - intros b i [k|] b' H; inversion H; reflexivity.
Qed.

Section NormalizerFacts.
Context {P : PIL} {PL : PIL_laws P}.

Lemma str_in_cons (x y : string) (l : list string) :
  str_in x (y :: l) = String.eqb x y || str_in x l.
Proof. reflexivity. Qed.

(** The canvas branch ends in an RGB image of the canvas' size. *)
Lemma composite_on_white_output (image out : Image) :
  composite_on_white image = Ok out ->
  Image_mode out = "RGB" /\ Image_size out = Image_size image.
Proof.
  unfold composite_on_white, rbind. intros H.
  destruct (Image_new "RGB" (Image_size image) white) as [bg|e] eqn:Hbg;
    [|discriminate].
  destruct (if String.eqb (Image_mode image) "P"
            then Image_convert image "RGBA" else Ok image) as [im|e];
    [|discriminate].
  destruct (paste_mask im) as [mask|e]; [|discriminate].
  split.
  - rewrite (paste_mode _ _ _ _ H). exact (new_mode _ _ _ _ Hbg).
  - rewrite (paste_size _ _ _ _ H). exact (new_size _ _ _ _ Hbg).
Qed.

(** C3 (as the code has it). The image is composited onto a white RGB
    canvas of its own size exactly when its mode is RGBA, LA or P: an
    RGBA or LA image is pasted through its last band, a P image is
    first converted to RGBA and that is pasted through its last band.
    Every other mode but RGB, whatever it carries, is converted to RGB
    with no canvas; an RGB image is returned as it is.  Whenever the
    normalizer returns, its output has mode RGB and the size of the
    input. *)
Theorem normalizer_by_mode (image : Image) :
  (str_in (Image_mode image) ["RGBA"; "LA"] = true ->
   normalize image = paste_through_alpha image)
  /\ (Image_mode image = "P" ->
      normalize image =
        (background <- Image_new "RGB" (Image_size image) white ;;
         rgba <- Image_convert image "RGBA" ;;
         bands <- Image_split rgba ;;
         alpha <- last_item bands ;;
         Image_paste background rgba (Some alpha))%result)
  /\ (str_in (Image_mode image) ["RGBA"; "LA"; "P"; "RGB"] = false ->
      normalize image = Image_convert image "RGB")
  /\ (Image_mode image = "RGB" -> normalize image = Ok image)
  /\ (forall out, normalize image = Ok out ->
      Image_mode out = "RGB" /\ Image_size out = Image_size image).
Proof.
  repeat split.
  - intros Hm.
    assert (Hin : str_in (Image_mode image) ["RGBA"; "LA"; "P"] = true).
    { simpl in *.
      destruct (String.eqb (Image_mode image) "RGBA"),
        (String.eqb (Image_mode image) "LA");
        simpl in *; try reflexivity; discriminate. }
    assert (HP : String.eqb (Image_mode image) "P" = false).
    { rewrite !str_in_cons in Hm. simpl str_in in Hm.
      rewrite orb_false_r in Hm. apply orb_true_iff in Hm.
      destruct Hm as [Hm|Hm]; apply String.eqb_eq in Hm; rewrite Hm;
        reflexivity. }
    unfold normalize, composite_on_white, paste_through_alpha, paste_mask.
    rewrite Hin, HP.
    destruct (Image_new "RGB" (Image_size image) white) as [bg|e];
      [|reflexivity].
    cbn [rbind]. rewrite Hm.
    destruct (Image_split image) as [bands|e]; [|reflexivity].
    cbn [rbind]. destruct (last_item bands); reflexivity.
  - intros Hm. unfold normalize, composite_on_white. rewrite Hm. simpl.
    destruct (Image_new "RGB" (Image_size image) white) as [bg|e];
      [|reflexivity].
    simpl. destruct (Image_convert image "RGBA") as [rgba|e] eqn:Hc;
      [|reflexivity].
    simpl. unfold paste_mask. rewrite (convert_mode _ _ _ Hc).
    change (str_in "RGBA" ["RGBA"; "LA"]) with true. cbv iota.
    destruct (Image_split rgba) as [bands|e]; [|reflexivity].
    cbn [rbind]. destruct (last_item bands); reflexivity.
  - intros Hm. unfold normalize.
    rewrite !str_in_cons in *. simpl str_in in *.
    rewrite !orb_false_r in *.
    destruct (String.eqb (Image_mode image) "RGBA"); [discriminate|].
    destruct (String.eqb (Image_mode image) "LA"); [discriminate|].
    destruct (String.eqb (Image_mode image) "P"); [discriminate|].
    destruct (String.eqb (Image_mode image) "RGB"); [discriminate|].
    reflexivity.
  - intros Hm. unfold normalize. rewrite Hm. reflexivity.
  - unfold normalize in H.
    destruct (str_in (Image_mode image) ["RGBA"; "LA"; "P"]).
    + apply composite_on_white_output in H. apply H.
    + destruct (String.eqb (Image_mode image) "RGB") eqn:Hrgb; simpl in H.
      * inversion H; subst. apply String.eqb_eq in Hrgb. exact Hrgb.
      * exact (convert_mode _ _ _ H).
  - unfold normalize in H.
    destruct (str_in (Image_mode image) ["RGBA"; "LA"; "P"]).
    + apply composite_on_white_output in H. apply H.
    + destruct (String.eqb (Image_mode image) "RGB") eqn:Hrgb; simpl in H.
      * inversion H; subst. reflexivity.
      * exact (convert_size _ _ _ H).
Qed.

End NormalizerFacts.

(** An RGBA picture goes onto the canvas through its fourth band; a
    palette picture with an alpha band (mode PA, as a TIFF can have
    it) is converted. *)
Lemma normalizer_by_mode_witness :
  PIL_laws Reference.pil
  /\ @normalize Reference.pil Reference.rgba_png =
     Ok (Reference.PastedMasked (Reference.Blank "RGB" (2, 1) white)
           Reference.rgba_png (Reference.Band Reference.rgba_png 3))
  /\ @normalize Reference.pil Reference.pa_tiff =
     Ok (Reference.Converted Reference.pa_tiff "RGB").
Proof.
  split; [exact reference_pil_laws|].
  destruct (@normalizer_by_mode Reference.pil reference_pil_laws
              Reference.rgba_png) as (Hrgba & _).
  destruct (@normalizer_by_mode Reference.pil reference_pil_laws
              Reference.pa_tiff) as (_ & _ & Hpa & _).
  split.
  - rewrite Hrgba; reflexivity.
  - rewrite Hpa; reflexivity.
Defined.

(** C3 as stated fails: mode PA carries an alpha band and is indexed by
    a palette, yet what the normalizer returns for such an image is
    the conversion to RGB, which is no paste onto a white canvas. *)
Lemma palette_with_alpha_is_not_composited :
  ~ (forall (P : PIL), PIL_laws P -> forall image out : Image,
        carries_alpha (Image_mode image)
        || palette_indexed (Image_mode image) = true ->
        normalize image = Ok out ->
        composited_on_white image out).
Proof.
  intros H.
  destruct (H Reference.pil reference_pil_laws Reference.pa_tiff
              (Reference.Converted Reference.pa_tiff "RGB")
              eq_refl eq_refl)
    as (background & pasted & [mask|] & _ & Hpaste);
    discriminate Hpaste.
Qed.

(** ** Timestamps as text *)

Lemma lex_compare (m da db ra rb : N) :
  (ra < m)%N -> (rb < m)%N ->
  (m * da + ra ?= m * db + rb)%N = and_then (da ?= db)%N (ra ?= rb)%N.
Proof.
  intros Ha Hb.
  destruct (N.compare_spec da db) as [->|Hlt|Hgt]; simpl.
  - destruct (N.compare_spec ra rb) as [->|H|H].
    + apply N.compare_refl.
    + apply N.compare_lt_iff. lia.
    + apply N.compare_gt_iff. lia.
  - apply N.compare_lt_iff. nia.
  - apply N.compare_gt_iff. nia.
Qed.

Lemma lex_compare_r (m da db ra rb : N) :
  (ra < m)%N -> (rb < m)%N ->
  (da * m + ra ?= db * m + rb)%N = and_then (da ?= db)%N (ra ?= rb)%N.
Proof.
  intros Ha Hb. rewrite (N.mul_comm da), (N.mul_comm db).
  apply lex_compare; assumption.
Qed.

Lemma compare_shift (k a b : N) : (k + a ?= k + b)%N = (a ?= b)%N.
Proof.
  destruct (N.compare_spec a b) as [->|H|H].
  - apply N.compare_refl.
  - apply N.compare_lt_iff. lia.
  - apply N.compare_gt_iff. lia.
Qed.

Lemma digit_char_code (d : N) : (d < 10)%N -> N_of_ascii (digit_char d) = (48 + d)%N.
Proof.
  intros H. unfold digit_char. apply N_ascii_embedding. lia.
Qed.

Lemma is_digit_digit_char (d : N) : (d < 10)%N -> is_digit (digit_char d) = true.
Proof.
  intros H. unfold is_digit. rewrite digit_char_code by assumption.
  apply andb_true_iff; split; apply N.leb_le; lia.
Qed.

Lemma mod_digit (n : N) (w : nat) :
  (n mod 10 ^ N.of_nat (S w) = 10 ^ N.of_nat w * ((n / 10 ^ N.of_nat w) mod 10) + n mod 10 ^ N.of_nat w)%N.
Proof.
  rewrite Nat2N.inj_succ, N.pow_succ_r'.
  rewrite (N.mul_comm 10). rewrite N.Div0.mod_mul_r. lia.
Qed.

Lemma read_digits_zfill (w : nat) (n acc : N) (s : string) :
  read_digits w acc (zfill w n ++ s) = Some ((acc * 10 ^ N.of_nat w + n mod 10 ^ N.of_nat w)%N, s).
Proof.
  revert acc. induction w as [|w IH]; intros acc.
  - simpl. rewrite N.mod_1_r. do 2 f_equal. lia.
  - cbn [zfill read_digits append].
    rewrite mod_digit.
    set (d := ((n / 10 ^ N.of_nat w) mod 10)%N).
    assert (Hd : (d < 10)%N) by (apply N.mod_lt; lia).
    rewrite is_digit_digit_char by assumption.
    rewrite digit_char_code by assumption.
    rewrite IH. do 2 f_equal.
    rewrite Nat2N.inj_succ, N.pow_succ_r'.
    rewrite (N.add_comm 48 d), N.add_sub.
    ring.
Qed.

Lemma compare_zfill (w : nat) (a b : N) (s t : string) :
  String.compare (zfill w a ++ s) (zfill w b ++ t) =
  and_then (a mod 10 ^ N.of_nat w ?= b mod 10 ^ N.of_nat w)%N (String.compare s t).
Proof.
  induction w as [|w IH].
  - simpl. rewrite !N.mod_1_r. reflexivity.
  - cbn [zfill append String.compare]. unfold Ascii.compare.
    rewrite IH, !mod_digit.
    set (da := ((a / 10 ^ N.of_nat w) mod 10)%N).
    set (db := ((b / 10 ^ N.of_nat w) mod 10)%N).
    assert (Ha : (da < 10)%N) by (apply N.mod_lt; lia).
    assert (Hb : (db < 10)%N) by (apply N.mod_lt; lia).
    rewrite !digit_char_code by assumption.
    rewrite lex_compare by (apply N.mod_lt; apply N.pow_nonzero; lia).
    rewrite compare_shift.
    destruct (da ?= db)%N; reflexivity.
Qed.

Lemma compare_sep (c : ascii) (s t : string) :
  String.compare (String c s) (String c t) = String.compare s t.
Proof.
  cbn [String.compare]. unfold Ascii.compare. rewrite N.compare_refl. reflexivity.
Qed.

Lemma and_then_Eq (c : comparison) : and_then c Eq = c.
Proof. destruct c; reflexivity. Qed.

Lemma days_in_month_le (y m : N) : (days_in_month y m <= 31)%N.
Proof.
  unfold days_in_month.
  destruct (m =? 2)%N; [destruct (is_leap y); lia|].
  destruct ((m =? 4) || (m =? 6) || (m =? 9) || (m =? 11))%N; lia.
Qed.

Lemma valid_datetime_bounds (d : datetime) :
  valid_datetime d = true ->
  (1 <= year d <= 9999 /\ 1 <= month d <= 12 /\ 1 <= day d <= 31 /\ hour d <= 23
   /\ minute d <= 59 /\ second d <= 59 /\ microsecond d <= 999999)%N.
Proof.
  unfold valid_datetime. rewrite !andb_true_iff, !N.leb_le.
  pose proof (days_in_month_le (year d) (month d)). intuition lia.
Qed.

Lemma compare_isoformat (a b : datetime) :
  valid_datetime a = true -> valid_datetime b = true ->
  String.compare (isoformat a) (isoformat b) = datetime_compare a b.
Proof.
  intros Ha Hb. apply valid_datetime_bounds in Ha, Hb.
  unfold isoformat, datetime_compare.
  do 6 (rewrite compare_zfill; rewrite !N.mod_small by (simpl; lia);
        apply f_equal; cbn [append]; try rewrite compare_sep).
  destruct (N.eqb_spec (microsecond a) 0) as [Ea|Ea];
    destruct (N.eqb_spec (microsecond b) 0) as [Eb|Eb].
  - rewrite Ea, Eb. reflexivity.
  - rewrite Ea. destruct (microsecond b); [congruence|reflexivity].
  - rewrite Eb. destruct (microsecond a); [congruence|reflexivity].
  - cbn [append]. rewrite compare_sep, compare_zfill.
    rewrite !N.mod_small by (simpl; lia).
    apply and_then_Eq.
Qed.

Lemma expect_head (c : ascii) (s : string) : expect c (String c s) = Some s.
Proof. simpl. rewrite Ascii.eqb_refl. reflexivity. Qed.

Lemma parse_isoformat_isoformat (d : datetime) :
  valid_datetime d = true -> parse_isoformat (isoformat d) = Some d.
Proof.
  intros Hv. pose proof (valid_datetime_bounds d Hv) as Hb.
  unfold parse_isoformat, isoformat.
  do 6 (rewrite read_digits_zfill; cbn [obind append];
        try rewrite expect_head; cbn [obind];
        rewrite N.mod_small by (simpl; lia); rewrite N.add_0_l).
  assert (Hf : read_fraction
            ((if (microsecond d =? 0)%N then "" else "." ++ zfill 6 (microsecond d))
             ++ "+00:00") = Some (microsecond d)).
  { destruct (N.eqb_spec (microsecond d) 0) as [E|E].
    - rewrite E. reflexivity.
    - cbn [append read_fraction]. rewrite Ascii.eqb_refl.
      rewrite read_digits_zfill. cbn [obind].
      rewrite N.mod_small by (simpl; lia). reflexivity. }
  cbn [append] in Hf |- *. rewrite Hf. cbn [obind]. destruct d; simpl in *. rewrite Hv. reflexivity.
Qed.

Lemma and_then_assoc (a b c : comparison) :
  and_then (and_then a b) c = and_then a (and_then b c).
Proof. destruct a; reflexivity. Qed.

Lemma datetime_compare_instant (a b : datetime) :
  valid_datetime a = true -> valid_datetime b = true ->
  datetime_compare a b = (instant a ?= instant b)%N.
Proof.
  intros Ha Hb. apply valid_datetime_bounds in Ha, Hb.
  unfold instant, datetime_compare.
  do 6 (rewrite lex_compare_r by lia).
  rewrite !and_then_assoc. reflexivity.
Qed.

Section ListFacts.
Context {F : PyFloat} {C : Cursor}.

Lemma fromisoformat_isoformat (t : datetime) :
  valid_datetime t = true -> fromisoformat (isoformat t) = Ok t.
Proof.
  intros H. unfold fromisoformat. rewrite parse_isoformat_isoformat by exact H.
  reflexivity.
Qed.

Lemma to_stats_holds (d : document) (s : CompressionStats) :
  holds d s -> to_stats (project d) = Ok s.
Proof.
  intros (H1 & H2 & H3 & H4 & H5 & H6 & H7 & H8).
  unfold to_stats, project, parse_timestamp; simpl.
  rewrite H7, fromisoformat_isoformat by exact H8. simpl.
  rewrite H1, H2, H3, H4, H5, H6. destruct s; reflexivity.
Qed.

Lemma mapM_holds (docs : list document) :
  service_written docs ->
  exists l, mapM to_stats (map project docs) = Ok l /\ Forall2 holds docs l.
Proof.
  induction 1 as [|d docs [s Hs] _ (l & Hl & Hall)].
  - exists []. split; [reflexivity|constructor].
  - exists (s :: l). split.
    + simpl. rewrite (to_stats_holds d s Hs). simpl. rewrite Hl. reflexivity.
    + constructor; assumption.
Qed.

Lemma mapM_length {A B} (f : A -> result B) (l : list A) (l' : list B) :
  mapM f l = Ok l' -> List.length l' = List.length l.
Proof.
  revert l'. induction l as [|x l IH]; intros l' H.
  - inversion H; reflexivity.
  - simpl in H. destruct (f x) as [y|e]; [|discriminate].
    simpl in H. destruct (mapM f l) as [ys|e]; [|discriminate].
    inversion H; subst. simpl. f_equal. apply IH. reflexivity.
Qed.

Lemma newer_or_same_instant (a b : document) (sa sb : CompressionStats) :
  holds a sa -> holds b sb ->
  (newer_or_same a b <-> (instant (timestamp sb) <= instant (timestamp sa))%N).
Proof.
  intros (_ & _ & _ & _ & _ & _ & Ta & Va) (_ & _ & _ & _ & _ & _ & Tb & Vb).
  unfold newer_or_same. rewrite Ta, Tb. unfold bson_compare.
  rewrite compare_isoformat, datetime_compare_instant by assumption.
  rewrite N.compare_lt_iff. lia.
Qed.

Lemma newer_or_same_not_older (a b : document) (sa sb : CompressionStats) :
  holds a sa -> holds b sb -> newer_or_same a b -> not_older sa sb.
Proof.
  intros Ha Hb. unfold newer_or_same, not_older.
  destruct Ha as (_ & _ & _ & _ & _ & _ & Ta & Va).
  destruct Hb as (_ & _ & _ & _ & _ & _ & Tb & Vb).
  rewrite Ta, Tb. unfold bson_compare.
  rewrite compare_isoformat by assumption. auto.
Qed.

Lemma service_written_perm (l l' : list document) :
  Permutation l l' -> service_written l' -> service_written l.
Proof.
  intros Hp H. unfold service_written in *.
  rewrite Forall_forall in *. intros d Hd. apply H.
  apply (Permutation_in _ Hp Hd).
Qed.

Lemma service_written_firstn (n : nat) (l : list document) :
  service_written l -> service_written (firstn n l).
Proof.
  unfold service_written. rewrite !Forall_forall.
  intros H d Hd. apply H. rewrite <- (firstn_skipn n l).
  apply in_or_app. left. exact Hd.
Qed.

Lemma Sorted_firstn {A} (R : A -> A -> Prop) (n : nat) (l : list A) :
  Sorted R l -> Sorted R (firstn n l).
Proof.
  revert n. induction l as [|x l IH]; intros n H.
  - rewrite firstn_nil. constructor.
  - destruct n as [|n]; [constructor|]. simpl.
    inversion H as [|? ? Hs Hh]; subst. constructor.
    + apply IH. exact Hs.
    + destruct l as [|y l]; [destruct n; constructor|].
      destruct n as [|n]; simpl; [constructor|].
      inversion Hh; subst. constructor. assumption.
Qed.

Lemma Sorted_holds (docs : list document) (l : list CompressionStats) :
  Forall2 holds docs l -> Sorted newer_or_same docs -> Sorted not_older l.
Proof.
  induction 1 as [|d s docs l Hds Hall IH]; intros Hs.
  - constructor.
  - inversion Hs as [|? ? Hs' Hh]; subst. constructor.
    + apply IH. exact Hs'.
    + destruct Hall as [|d' s' docs' l' Hd's' _]; constructor.
      inversion Hh; subst.
      apply (newer_or_same_not_older d d' s s'); assumption.
Qed.

Lemma service_sorted_strongly (docs : list document) :
  service_written docs -> Sorted newer_or_same docs ->
  StronglySorted newer_or_same docs.
Proof.
  induction docs as [|a docs IH]; intros Hw Hs.
  - constructor.
  - inversion Hw as [|? ? [sa Ha] Hw']; subst.
    inversion Hs as [|? ? Hs' Hh]; subst.
    specialize (IH Hw' Hs'). constructor; [exact IH|].
    destruct docs as [|b docs]; [constructor|].
    inversion Hh as [|? ? Hab]; subst.
    inversion IH as [|? ? _ Hb]; subst.
    inversion Hw' as [|? ? [sb Hsb] Hw'']; subst.
    constructor; [exact Hab|].
    rewrite Forall_forall in *. intros c Hc.
    destruct (Hw'' c Hc) as [sc Hsc].
    specialize (Hb c Hc).
    rewrite (newer_or_same_instant a b sa sb) in Hab by assumption.
    rewrite (newer_or_same_instant b c sb sc) in Hb by assumption.
    rewrite (newer_or_same_instant a c sa sc) by assumption.
    lia.
Qed.

End ListFacts.

(** ** The insertion-sort cursor obeys the laws *)

Section InsertionCursor.
Context {F : PyFloat}.

Lemma datetime_compare_antisym (a b : datetime) :
  datetime_compare a b = CompOpp (datetime_compare b a).
Proof.
  unfold datetime_compare.
  rewrite (N.compare_antisym (year a)), (N.compare_antisym (month a)),
    (N.compare_antisym (day a)), (N.compare_antisym (hour a)),
    (N.compare_antisym (minute a)), (N.compare_antisym (second a)),
    (N.compare_antisym (microsecond a)).
  destruct (year a ?= year b)%N, (month a ?= month b)%N,
    (day a ?= day b)%N, (hour a ?= hour b)%N, (minute a ?= minute b)%N,
    (second a ?= second b)%N, (microsecond a ?= microsecond b)%N;
    reflexivity.
Qed.

Lemma bson_compare_antisym (a b : bson_time) :
  bson_compare a b = CompOpp (bson_compare b a).
Proof.
  destruct a, b; simpl; try reflexivity.
  - apply String.compare_antisym.
  - apply datetime_compare_antisym.
Qed.

Lemma newer_or_sameb_false (a b : document) :
  newer_or_sameb a b = false -> newer_or_same b a.
Proof.
  unfold newer_or_sameb, newer_or_same.
  rewrite (bson_compare_antisym (doc_timestamp b)).
  destruct (bson_compare (doc_timestamp a) (doc_timestamp b));
    simpl; congruence.
Qed.

Lemma newer_or_sameb_true (a b : document) :
  newer_or_sameb a b = true -> newer_or_same a b.
Proof.
  unfold newer_or_sameb, newer_or_same.
  destruct (bson_compare (doc_timestamp a) (doc_timestamp b)); congruence.
Qed.

Lemma insert_desc_perm (d : document) (l : list document) :
  Permutation (insert_desc d l) (d :: l).
Proof.
  induction l as [|x l IH]; simpl.
  - apply Permutation_refl.
  - destruct (newer_or_sameb d x).
    + apply Permutation_refl.
    + apply perm_trans with (x :: d :: l).
      * apply perm_skip. exact IH.
      * apply perm_swap.
Qed.

Lemma insert_desc_sorted (d : document) (l : list document) :
  Sorted newer_or_same l -> Sorted newer_or_same (insert_desc d l).
Proof.
  induction l as [|x l IH]; intros Hs; simpl.
  - repeat constructor.
  - destruct (newer_or_sameb d x) eqn:Hdx.
    + constructor; [exact Hs|]. constructor.
      apply newer_or_sameb_true. exact Hdx.
    + inversion Hs as [|? ? Hs' Hh]; subst.
      constructor; [apply IH; exact Hs'|].
      destruct l as [|y l]; simpl.
      * constructor. apply newer_or_sameb_false. exact Hdx.
      * destruct (newer_or_sameb d y).
        -- constructor. apply newer_or_sameb_false. exact Hdx.
        -- inversion Hh; subst. constructor. assumption.
Qed.

Lemma insertion_cursor_laws : Cursor_laws insertion_cursor.
Proof.
  constructor; simpl; intros l; induction l as [|d l IH]; simpl.
  - apply perm_nil.
  - apply perm_trans with (d :: insertion_sort_desc l).
    + apply insert_desc_perm.
    + apply perm_skip. exact IH.
  - constructor.
  - apply insert_desc_sorted. exact IH.
Qed.

End InsertionCursor.

(** ** The list handler *)

Section ListClaims.
Context {F : PyFloat} {P : PIL} {C : Cursor} {CL : Cursor_laws C}.

(** C5. On a collection written by the compress handler, the list
    handler returns the records of the first 100 documents of a
    descending arrangement of the whole collection, each with the
    fields that were stored and its timestamp read back from the
    ISO-8601 text; the records come most recent first. *)
Theorem list_is_newest_first (st : state) :
  service_written (db st) ->
  exists docs l,
    get_compression_stats st = (Ok l, st)
    /\ Permutation docs (db st)
    /\ StronglySorted newer_or_same docs
    /\ Forall2 holds (firstn 100 docs) l
    /\ Sorted not_older l.
Proof.
  intros Hw.
  set (docs := sort_timestamp_desc (db st)).
  assert (Hp : Permutation docs (db st)) by apply sort_perm.
  assert (Hs : Sorted newer_or_same docs) by apply sort_sorted.
  assert (Hwd : service_written docs)
    by (apply (service_written_perm _ _ Hp); exact Hw).
  destruct (mapM_holds (firstn 100 docs))
    as (l & Hl & Hall); [apply service_written_firstn; exact Hwd|].
  exists docs, l. repeat split; auto.
  - unfold get_compression_stats, find_recent. fold docs. rewrite Hl.
    reflexivity.
  - apply service_sorted_strongly; assumption.
  - apply (Sorted_holds _ _ Hall). apply Sorted_firstn. exact Hs.
Qed.

(** C6. Whatever the collection holds, a list the handler returns has
    at most 100 records; and on a collection written by the compress
    handler it does return one, of the 100 documents or of all when
    there are fewer. *)
Theorem list_has_at_most_100 (st : state) :
  (forall l st', get_compression_stats st = (Ok l, st') ->
                 (List.length l <= 100)%nat)
  /\ (service_written (db st) ->
      exists l, get_compression_stats st = (Ok l, st)
                /\ List.length l = Nat.min 100 (List.length (db st))).
Proof.
  split.
  - intros l st' H.
    assert (Hm : mapM to_stats (find_recent (db st)) = Ok l)
      by (unfold get_compression_stats in H; congruence).
    apply mapM_length in Hm. unfold find_recent in Hm.
    rewrite Hm, length_map, length_firstn. apply Nat.le_min_l.
  - intros Hw.
    destruct (mapM_holds (firstn 100 (sort_timestamp_desc (db st))))
      as (l & Hl & _).
    { apply service_written_firstn.
      apply (service_written_perm _ _ (sort_perm (db st))). exact Hw. }
    exists l. split.
    + unfold get_compression_stats, find_recent. rewrite Hl. reflexivity.
    + apply mapM_length in Hl.
      rewrite Hl, length_map, length_firstn.
      rewrite (Permutation_length (sort_perm (db st))). reflexivity.
Qed.

(** The first document of a descending arrangement of the collection
    with one more document, strictly newer than all others, is that
    document. *)
Lemma newest_is_first (old : list document) (new : document)
    (snew : CompressionStats) :
  service_written old ->
  holds new snew ->
  (forall d s, In d old -> holds d s ->
               datetime_compare (timestamp s) (timestamp snew) = Lt) ->
  exists rest, sort_timestamp_desc (old ++ [new]) = new :: rest.
Proof.
  intros Hw Hnew Hold.
  set (docs := sort_timestamp_desc (old ++ [new])).
  assert (Hp : Permutation docs (old ++ [new])) by apply sort_perm.
  assert (Hwd : service_written docs).
  { apply (service_written_perm _ _ Hp). apply Forall_app. split; [exact Hw|].
    constructor; [exists snew; exact Hnew|constructor]. }
  assert (Hs : StronglySorted newer_or_same docs)
    by (apply service_sorted_strongly; [exact Hwd|apply sort_sorted]).
  assert (Hin : In new docs).
  { apply (Permutation_in _ (Permutation_sym Hp)).
    apply in_or_app. right. left. reflexivity. }
  destruct docs as [|x rest] eqn:Hdocs; [destruct Hin|].
  exists rest. f_equal.
  assert (Hx : In x (old ++ [new]))
    by (apply (Permutation_in _ Hp); left; reflexivity).
  apply in_app_or in Hx. destruct Hx as [Hx|[Hx|[]]]; [|symmetry; exact Hx].
  exfalso.
  unfold service_written in Hw. rewrite Forall_forall in Hw.
  destruct (Hw x Hx) as [sx Hsx].
  specialize (Hold x sx Hx Hsx).
  assert (Hge : newer_or_same x new).
  { destruct Hin as [->|Hin].
    - rewrite (newer_or_same_instant new new snew snew) by assumption. lia.
    - inversion Hs as [|? ? _ Hall]; subst.
      rewrite Forall_forall in Hall. apply Hall. exact Hin. }
  apply (newer_or_same_not_older x new sx snew Hsx Hnew) in Hge.
  apply Hge. exact Hold.
Qed.

(** C7. When a compress request is answered with a response and the
    instant it recorded is later than that of every document already
    in a collection the service wrote, the list handler run next
    returns as its first element the record that was written, with the
    fields the request recorded. *)
Theorem recorded_then_listed_first (file : UploadFile) (w : effects)
    (st st' : state) (r : StreamingResponse) :
  service_written (db st) ->
  valid_datetime (utcnow w) = true ->
  (forall d s, In d (db st) -> holds d s ->
               datetime_compare (timestamp s) (utcnow w) = Lt) ->
  compress_image file w st = (Response r, st') ->
  exists contents name image ratio stats rest,
    read file = Ok contents
    /\ filename file = Some name
    /\ Image_open contents = Ok image
    /\ compression_ratio (len (body r)) (len contents) = Ok ratio
    /\ stats = {| id := uuid4 w;
                  original_filename := name;
                  original_size := len contents;
                  compressed_size := len (body r);
                  original_format := format_or_unknown image;
                  compression_ratio_of := as_float ratio;
                  timestamp := utcnow w |}
    /\ db st' = (db st ++ [stats_doc w stats])%list
    /\ get_compression_stats st' = (Ok (stats :: rest), st').
Proof.
  intros Hw Hv Hold H.
  apply compress_image_response in H. apply compress_try_inv in H.
  destruct H as (contents & image & image' & ratio & name & stats & Hread
                 & Hopen & _ & _ & Hratio & Hname & Hinit & _ & -> & _).
  simpl in Hinit. inversion Hinit as [Hstats]. rewrite Hstats.
  assert (Hnew : holds (stats_doc w stats) stats).
  { subst stats. repeat split. exact Hv. }
  destruct (newest_is_first (db st) (stats_doc w stats) stats Hw Hnew)
    as [tl Htl].
  { subst stats. exact Hold. }
  assert (Hwd : service_written (stats_doc w stats :: tl)).
  { rewrite <- Htl.
    apply (service_written_perm _ _ (sort_perm _)).
    apply Forall_app. split; [exact Hw|].
    constructor; [exists stats; exact Hnew|constructor]. }
  inversion Hwd as [|? ? _ Hwtl]; subst x l.
  destruct (mapM_holds (firstn 99 tl)) as (rest & Hrest & _);
    [apply service_written_firstn; exact Hwtl|].
  exists contents, name, image, ratio, stats, rest.
  repeat split; auto.
  unfold get_compression_stats, find_recent. cbn [db].
  rewrite Htl.
  change (firstn 100 (stats_doc w stats :: tl))
    with (stats_doc w stats :: firstn 99 tl).
  cbn [map mapM].
  rewrite (to_stats_holds _ _ Hnew). cbn [rbind]. rewrite Hrest.
  reflexivity.
Qed.

End ListClaims.

(** ** The properties at sample requests *)

Section Samples.
Import Reference Archive.
#[local] Existing Instance pyfloat.
#[local] Existing Instance pil.
#[local] Existing Instance insertion_cursor.

(** Runs a compress request and names its response and final state. *)
Ltac run_compress file w st Hrun :=
  let v := eval vm_compute in (compress_image file w st) in
  match v with
  | (Response ?r, ?st') =>
      exists r, st';
      assert (Hrun : compress_image file w st = (Response r, st'))
        by (vm_compute; reflexivity)
  end.

Lemma TsStr_inj (s t : string) : TsStr s = TsStr t -> s = t.
Proof. intros H. inversion H. reflexivity. Qed.

Lemma isoformat_inj (a b : datetime) :
  valid_datetime a = true -> valid_datetime b = true ->
  isoformat a = isoformat b -> a = b.
Proof.
  intros Ha Hb H. apply (f_equal parse_isoformat) in H.
  rewrite !parse_isoformat_isoformat in H by assumption.
  inversion H; reflexivity.
Qed.

Lemma earlier_holds (n : nat) :
  (n <= 1000)%nat -> holds (earlier_doc n) (earlier n).
Proof.
  intros Hn. repeat split.
  unfold valid_datetime, earlier; cbn [timestamp year month day hour minute
                                       second microsecond].
  change (days_in_month 2024 5) with 31%N.
  rewrite !andb_true_iff, !N.leb_le. lia.
Qed.

Lemma earlier_written (ns : list nat) :
  Forall (fun n => n <= 1000)%nat ns ->
  service_written (map earlier_doc ns).
Proof.
  intros H. unfold service_written. rewrite Forall_forall in *.
  intros d Hd. apply in_map_iff in Hd. destruct Hd as (n & <- & Hn).
  exists (earlier n). apply earlier_holds. apply H. exact Hn.
Qed.

Lemma crowded_written : service_written (db crowded).
Proof.
  apply earlier_written. rewrite Forall_forall. intros n Hn.
  apply in_seq in Hn. lia.
Qed.

Lemma shuffled_written : service_written (db shuffled).
Proof.
  apply (earlier_written [5; 0; 9]%nat). repeat constructor; lia.
Qed.

Lemma ratio_recorded_and_reported_witness :
  exists r st' d,
    compress_image photo_png (quiet noon) empty_state = (Response r, st')
    /\ db st' = [d]
    /\ doc_compression_ratio d =
       FRound (FMul (FSub (FInt 1) (FDiv 7 11)) (FInt 100)) 2
    /\ header "X-Compression-Ratio" (headers r) =
       Some "round((1 - 7 / 11) * 100, 2)".
Proof.
  run_compress photo_png (quiet noon) empty_state Hrun.
  destruct (ratio_recorded_and_reported photo_png (quiet noon) empty_state
              _ _ Hrun)
    as (c & i & d & Hr & _ & Hdb & Hpos & _).
  exists d. injection Hr as <-.
  destruct (Hpos eq_refl) as (_ & Hd & Hh).
  split; [exact Hrun|]. split; [exact Hdb|]. split; [exact Hd|exact Hh].
Defined.


Lemma undecodable_upload_is_400_witness :
  read notes_txt = Ok (bytes_of [104; 101; 108; 108; 111]%nat)
  /\ fst (compress_image notes_txt (quiet noon) shuffled) =
     HTTPException 400 "Error processing image: cannot identify image file"
  /\ db (snd (compress_image notes_txt (quiet noon) shuffled)) = db shuffled.
Proof.
  split; [reflexivity|].
  destruct (@undecodable_upload_is_400 pyfloat pil reference_pil_laws
              notes_txt (quiet noon) shuffled _ eq_refl
              (or_intror (ex_intro _ unidentified eq_refl)))
    as (reason & Hreason & Hfst & _ & _ & Hdb).
  injection Hreason as <-. split; [exact Hfst|exact Hdb].
Defined.

Lemma response_headers_and_body_witness :
  exists r st',
    compress_image photo_png (quiet noon) empty_state = (Response r, st')
    /\ status_code r = 200
    /\ media_type r = "image/webp"
    /\ body r = bytes_of [82; 73; 70; 70; 0; 0; 0]%nat
    /\ header "Content-Disposition" (headers r) =
       Some ("attachment; filename=" ++ dquote ++ "photo.webp" ++ dquote)
    /\ header "X-Original-Size" (headers r) = Some "11"
    /\ header "X-Compressed-Size" (headers r) = Some "7"
    /\ header "X-Compression-Ratio" (headers r) =
       Some "round((1 - 7 / 11) * 100, 2)"
    /\ header "X-Original-Format" (headers r) = Some "PNG".
Proof.
  run_compress photo_png (quiet noon) empty_state Hrun.
  split; [exact Hrun|].
  destruct (response_headers_and_body photo_png (quiet noon) empty_state
              _ _ Hrun)
    as (c & i & i' & name & v & Hr & Hn & Ho & _ & Hb & Hv & Hs & Hm & Hcd
        & Hos & Hcs & Hcr & Hf & _).
  injection Hn as <-. injection Hr as <-.
  vm_compute in Ho. injection Ho as <-.
  vm_compute in Hv. injection Hv as <-.
  split; [exact Hs|]. split; [exact Hm|]. split; [reflexivity|].
  split; [exact Hcd|]. split; [exact Hos|]. split; [exact Hcs|].
  split; [exact Hcr|exact Hf].
Defined.

Lemma success_has_positive_size_witness :
  exists r st' contents,
    compress_image photo_png (quiet noon) empty_state = (Response r, st')
    /\ read photo_png = Ok contents
    /\ 0 < len contents.
Proof.
  run_compress photo_png (quiet noon) empty_state Hrun.
  destruct (@success_has_positive_size pyfloat pil reference_pil_laws
              photo_png (quiet noon) empty_state _ _ Hrun)
    as (c & Hr & Hpos & _).
  exists c. split; [exact Hrun|]. split; [exact Hr|exact Hpos].
Defined.





Lemma list_is_newest_first_witness :
  service_written (db shuffled)
  /\ exists l,
       fst (get_compression_stats shuffled) = Ok l
       /\ Sorted not_older l
       /\ List.length l = 3%nat.
Proof.
  split; [exact shuffled_written|].
  destruct (@list_is_newest_first pyfloat insertion_cursor
              insertion_cursor_laws shuffled shuffled_written)
    as (docs & l & Hrun & Hp & _ & Hall & Hs).
  exists l. rewrite Hrun. split; [reflexivity|]. split; [exact Hs|].
  rewrite <- (Forall2_length Hall), length_firstn.
  rewrite (Permutation_length Hp). reflexivity.
Defined.

Lemma list_has_at_most_100_witness :
  List.length (db crowded) = 101%nat
  /\ exists l,
       get_compression_stats crowded = (Ok l, crowded)
       /\ List.length l = 100%nat.
Proof.
  split; [reflexivity|].
  destruct (@list_has_at_most_100 pyfloat insertion_cursor
              insertion_cursor_laws crowded) as [_ H].
  destruct (H crowded_written) as (l & Hrun & Hlen).
  exists l. split; [exact Hrun|]. rewrite Hlen. reflexivity.
Defined.

Lemma recorded_then_listed_first_witness :
  exists r st' first rest,
    compress_image photo_png (quiet evening) shuffled = (Response r, st')
    /\ get_compression_stats st' = (Ok (first :: rest), st')
    /\ original_filename first = "holiday/photo.png"
    /\ timestamp first = evening.
Proof.
  run_compress photo_png (quiet evening) shuffled Hrun.
  assert (Hold : forall d s, In d (db shuffled) -> holds d s ->
                 datetime_compare (timestamp s) (utcnow (quiet evening)) = Lt).
  { intros d s Hd Hs.
    assert (Hn : exists n, (n <= 9)%nat /\ timestamp s = timestamp (earlier n)).
    { destruct Hs as (_ & _ & _ & _ & _ & _ & Ht & Hv).
      destruct Hd as [<-|[<-|[<-|[]]]];
        [exists 5%nat|exists 0%nat|exists 9%nat];
        (split; [lia|]);
        (apply isoformat_inj; [exact Hv|reflexivity|]);
        symmetry; apply TsStr_inj; exact Ht. }
    destruct Hn as (n & Hn & ->).
    do 10 (destruct n as [|n]; [reflexivity|]). lia. }
  destruct (@recorded_then_listed_first pyfloat pil insertion_cursor
              insertion_cursor_laws photo_png (quiet evening) shuffled
              _ _ shuffled_written eq_refl Hold Hrun)
    as (c & name & i & v & stats & rest & Hr & Hn & _ & _ & Hstats & _ & Hget).
  exists stats, rest. split; [exact Hrun|]. split; [exact Hget|].
  rewrite Hstats. injection Hn as <-. split; reflexivity.
Defined.

End Samples.

(** * Further properties *)

(** ** Effects of a compress request *)

Section Effects.
Context {F : PyFloat} {P : PIL}.

(** What the [try] has done to the state when it ends, whichever way. *)
Lemma compress_try_state (file : UploadFile) (w : effects) (st st' : state)
    (o : result StreamingResponse) :
  compress_try file w st = (o, st') ->
  st' = st
  \/ exists stats,
       timestamp stats = utcnow w
       /\ st' = {| db := db st ++ [stats_doc w stats]; log := log st |}.
Proof.
  unfold compress_try, bind, lift, ret, insert_one, filename_stem,
    CompressionStats_init.
  intros H.
  destruct (read file) as [contents|e]; [|inversion H; auto].
  destruct (Image_open contents) as [image|e]; [|inversion H; auto].
  destruct (normalize image) as [image'|e]; [|inversion H; auto].
  destruct (Image_save image' "WEBP" 95 6) as [output|e];
    [|inversion H; auto].
  destruct (compression_ratio (len output) (len contents)) as [ratio|e];
    [|inversion H; auto].
  destruct (filename file) as [name|]; [|inversion H; auto].
  destruct (insert_failure w) as [e|]; [inversion H; auto|].
  cbv zeta in H.
  match type of H with
  | context [init_headers ?hs] => destruct (init_headers hs) as [raw|e]
  end; inversion H; subst; right; eexists; (split; [|reflexivity]);
    reflexivity.
Qed.

(** X1. A compress request only ever appends to the collection: the
    documents it found stay, in their order, and at most one is added.
    A response has status 200, adds exactly one document and writes
    nothing to the log; an [HTTPException] has status 400 and adds
    exactly one line to the log. *)
Theorem compress_only_appends (file : UploadFile) (w : effects) (st : state) :
  exists added,
    db (snd (compress_image file w st)) = (db st ++ added)%list
    /\ (List.length added <= 1)%nat
    /\ match fst (compress_image file w st) with
       | Response r =>
           status_code r = 200
           /\ List.length added = 1%nat
           /\ log (snd (compress_image file w st)) = log st
       | HTTPException status detail =>
           status = 400
           /\ exists line,
                log (snd (compress_image file w st)) = (log st ++ [line])%list
       end.
Proof.
  unfold compress_image.
  destruct (compress_try file w st) as [[r|e] st'] eqn:Htry.
  - apply compress_try_inv in Htry.
    destruct Htry as (c & i & i' & v & n & s & _ & _ & _ & _ & _ & _ & _ & _
                      & -> & Hst & _).
    exists [stats_doc w s]. simpl. auto.
  - apply compress_try_state in Htry.
    destruct Htry as [-> | (stats & _ & ->)]; simpl.
    + exists []. rewrite app_nil_r. repeat split; auto. eexists; reflexivity.
    + exists [stats_doc w stats]. repeat split; auto. eexists; reflexivity.
Qed.

(** X2. The document a successful compress stores has the [_id] and
    [id] drawn for the request, the file name as it was uploaded (not
    its stem), the lengths of the upload and of the body, a format
    label that is never empty (Pillow's when it has one), and the
    clock's instant as ISO text; the size and format headers of the
    response show the same values. *)
Theorem stored_document_matches_response (file : UploadFile) (w : effects)
    (st st' : state) (r : StreamingResponse) :
  compress_image file w st = (Response r, st') ->
  exists contents image name d,
    read file = Ok contents
    /\ Image_open contents = Ok image
    /\ filename file = Some name
    /\ db st' = (db st ++ [d])%list
    /\ doc_oid d = new_object_id w
    /\ doc_id d = uuid4 w
    /\ doc_original_filename d = name
    /\ doc_original_size d = len contents
    /\ doc_compressed_size d = len (body r)
    /\ doc_original_format d <> ""
    /\ (forall label, Image_format image = Some label -> label <> "" ->
                      doc_original_format d = label)
    /\ doc_timestamp d = TsStr (isoformat (utcnow w))
    /\ header "X-Original-Size" (headers r) =
       Some (str_int (doc_original_size d))
    /\ header "X-Compressed-Size" (headers r) =
       Some (str_int (doc_compressed_size d))
    /\ header "X-Original-Format" (headers r) = Some (doc_original_format d).
Proof.
  intros H. apply compress_image_response in H. apply compress_try_inv in H.
  destruct H as (contents & image & image' & ratio & name & stats & Hread
                 & Hopen & _ & _ & _ & Hname & Hinit & _ & -> & _ & _ & Hh).
  simpl in Hinit. inversion Hinit; subst stats; clear Hinit.
  exists contents, image, name. eexists. rewrite Hh.
  repeat split; try reflexivity; try assumption.
  - simpl. unfold format_or_unknown.
    destruct (Image_format image) as [f|]; [|discriminate].
    destruct (String.eqb_spec f ""); [discriminate|assumption].
  - intros label Hl Hne. simpl. unfold format_or_unknown. rewrite Hl.
    destruct (String.eqb_spec label ""); [contradiction|reflexivity].
Qed.

End Effects.

(** ** The download name *)

Lemma split_slash_pieces (s : string) :
  Forall (fun p => Pathlib.has_char "/" p = false) (Pathlib.split_slash s).
Proof.
  induction s as [|c s IH]; simpl.
  - repeat constructor.
  - destruct (Ascii.eqb c "/") eqn:Hc.
    + constructor; [reflexivity|exact IH].
    + destruct (Pathlib.split_slash s) as [|p ps].
      * constructor; [simpl; rewrite Hc; reflexivity|constructor].
      * inversion IH; subst. constructor; [|assumption].
        simpl. rewrite Hc. assumption.
Qed.

Lemma name_no_slash (s : string) :
  Pathlib.has_char "/" (Pathlib.name s) = false.
Proof.
  unfold Pathlib.name.
  destruct (rev (Pathlib.parts s)) as [|p ps] eqn:Hrev; [reflexivity|].
  assert (Hin : In p (Pathlib.parts s)).
  { apply in_rev. rewrite Hrev. left. reflexivity. }
  unfold Pathlib.parts in Hin. apply filter_In in Hin. destruct Hin as [Hin _].
  pose proof (split_slash_pieces s) as H. rewrite Forall_forall in H.
  apply H. exact Hin.
Qed.

(** A name that is a part of a path is neither empty nor a lone dot. *)
Lemma name_not_dot (s : string) : Pathlib.name s <> ".".
Proof.
  unfold Pathlib.name.
  destruct (rev (Pathlib.parts s)) as [|p ps] eqn:Hrev; [discriminate|].
  assert (Hin : In p (Pathlib.parts s)).
  { apply in_rev. rewrite Hrev. left. reflexivity. }
  unfold Pathlib.parts in Hin. apply filter_In in Hin. destruct Hin as [_ Hp].
  intros ->. discriminate.
Qed.

(** Where [rfind] finds the last dot. *)
Lemma rfind_dot_some (n : string) (i : nat) :
  Pathlib.rfind_dot n = Some i ->
  exists pre ext,
    n = pre ++ String "." ext
    /\ String.length pre = i
    /\ Pathlib.has_char "." ext = false.
Proof.
  revert i. induction n as [|c n IH]; simpl; intros i H; [discriminate|].
  destruct (Pathlib.rfind_dot n) as [j|] eqn:Hj.
  - inversion H; subst. destruct (IH j eq_refl) as (pre & ext & -> & Hl & He).
    exists (String c pre), ext. simpl. rewrite Hl. auto.
  - destruct (Ascii.eqb c ".") eqn:Hc; [|discriminate].
    inversion H; subst. apply Ascii.eqb_eq in Hc. subst c.
    exists "", n. repeat split.
    clear IH H. induction n as [|d n IH]; [reflexivity|].
    simpl in Hj. destruct (Pathlib.rfind_dot n); [discriminate|].
    destruct (Ascii.eqb d ".") eqn:Hd; [discriminate|].
    simpl. rewrite Hd. apply IH. reflexivity.
Qed.

Lemma rfind_dot_none_inv (n : string) :
  Pathlib.rfind_dot n = None -> Pathlib.has_char "." n = false.
Proof.
  induction n as [|d n IH]; [reflexivity|]. simpl.
  destruct (Pathlib.rfind_dot n); [discriminate|].
  destruct (Ascii.eqb d ".") eqn:Hd; [discriminate|].
  intros _. simpl. apply IH. reflexivity.
Qed.

(** The stem and what it leaves of the name. *)
Lemma stem_cases (s : string) :
  (Pathlib.stem s = Pathlib.name s
   /\ (Pathlib.has_char "." (Pathlib.name s) = false
       \/ (exists rest, Pathlib.name s = String "." rest
                        /\ Pathlib.has_char "." rest = false)
       \/ exists pre, Pathlib.name s = pre ++ "."))
  \/ exists ext,
       Pathlib.name s = Pathlib.stem s ++ String "." ext
       /\ Pathlib.stem s <> ""
       /\ ext <> ""
       /\ Pathlib.has_char "." ext = false.
Proof.
  unfold Pathlib.stem. cbv zeta.
  destruct (Pathlib.rfind_dot (Pathlib.name s)) as [i|] eqn:Hi.
  - destruct (rfind_dot_some _ _ Hi) as (pre & ext & Hn & Hl & He).
    rewrite Hn.
    destruct ((0 <? i)%nat && (i <? String.length (pre ++ String "." ext) - 1)%nat)
      eqn:Hc.
    + right. exists ext.
      apply andb_true_iff in Hc. destruct Hc as [H0 H1].
      apply Nat.ltb_lt in H0, H1.
      rewrite <- Hl, substring_prefix.
      rewrite string_length_app in H1. simpl in H1.
      repeat split; auto.
      * intros ->. simpl in Hl. lia.
      * intros ->. simpl in H1. lia.
    + left. split; [reflexivity|].
      apply andb_false_iff in Hc. destruct Hc as [H0|H1].
      * apply Nat.ltb_ge in H0. right. left.
        destruct pre; [|simpl in Hl; lia]. exists ext. auto.
      * apply Nat.ltb_ge in H1. right. right.
        rewrite string_length_app in H1. simpl in H1.
        destruct ext; [|simpl in H1; lia]. exists pre. reflexivity.
  - left. split; [reflexivity|]. left. apply rfind_dot_none_inv. exact Hi.
Qed.

Lemma has_char_app_false (c : ascii) (s t : string) :
  Pathlib.has_char c (s ++ t) = false -> Pathlib.has_char c s = false.
Proof.
  rewrite has_char_app. intros H. apply orb_false_iff in H. apply H.
Qed.

Lemma stem_no_slash (s : string) :
  Pathlib.has_char "/" (Pathlib.stem s) = false.
Proof.
  pose proof (name_no_slash s) as Hn.
  destruct (stem_cases s) as [[-> _] | (ext & He & _)]; [exact Hn|].
  rewrite He in Hn. apply has_char_app_false in Hn. exact Hn.
Qed.

(** X3. [Path(s).stem] and the rest of the name: the final component
    is the stem followed by a suffix that is empty or a dot and a
    non-empty extension without dots (the stem then not empty).  A
    name that starts with its only dot, or ends with a dot, is its own
    stem. *)
Theorem stem_and_suffix (s : string) :
  (exists suffix,
     Pathlib.name s = Pathlib.stem s ++ suffix
     /\ (suffix = ""
         \/ exists ext, suffix = String "." ext
                        /\ ext <> ""
                        /\ Pathlib.has_char "." ext = false
                        /\ Pathlib.stem s <> ""))
  /\ (forall rest, Pathlib.name s = String "." rest ->
                   Pathlib.has_char "." rest = false ->
                   Pathlib.stem s = Pathlib.name s)
  /\ (forall pre, Pathlib.name s = pre ++ "." ->
                  Pathlib.stem s = Pathlib.name s).
Proof.
  split; [|split].
  - destruct (stem_cases s) as [[He _] | (ext & He & Hs & Hx & Hd)].
    + exists "". rewrite He. split; [|left; reflexivity].
      clear. induction (Pathlib.name s); simpl; congruence.
    + exists (String "." ext). split; [exact He|].
      right. exists ext. auto.
  - intros rest Hn Hd. unfold Pathlib.stem. cbv zeta. rewrite Hn.
    cbn [Pathlib.rfind_dot]. rewrite (rfind_dot_none _ Hd). reflexivity.
  - intros pre Hn. unfold Pathlib.stem. cbv zeta. rewrite Hn.
    pose proof (rfind_dot_last pre "" eq_refl) as Hr.
    change ("." ++ "") with "." in Hr. rewrite Hr.
    rewrite string_length_app. simpl String.length.
    replace (String.length pre <? String.length pre + 1 - 1)%nat with false
      by (symmetry; apply Nat.ltb_ge; lia).
    rewrite andb_false_r. reflexivity.
Qed.

Section Download.
Context {F : PyFloat} {P : PIL}.

(** X4. Whatever file name the client sent, the name offered for
    download has no slash: it is a prefix of the final component of
    the uploaded name, followed by .webp; it is the bare .webp only
    when the uploaded name has no final component. *)
Theorem download_name_has_no_directory (file : UploadFile) (w : effects)
    (st st' : state) (r : StreamingResponse) :
  compress_image file w st = (Response r, st') ->
  exists name stem,
    filename file = Some name
    /\ header "Content-Disposition" (headers r) =
       Some ("attachment; filename=" ++ dquote ++ stem ++ ".webp" ++ dquote)
    /\ Pathlib.has_char "/" stem = false
    /\ (exists suffix, Pathlib.name name = stem ++ suffix)
    /\ (stem = "" -> Pathlib.name name = "").
Proof.
  intros H. apply compress_image_response in H. apply compress_try_inv in H.
  destruct H as (contents & image & image' & ratio & name & stats & _
                 & _ & _ & _ & _ & Hname & _ & _ & _ & _ & _ & Hh).
  exists name, (Pathlib.stem name). rewrite Hh.
  repeat split; auto.
  - apply stem_no_slash.
  - destruct (stem_cases name) as [[He _] | (ext & He & _)].
    + exists "". rewrite He.
      clear. induction (Pathlib.name name); simpl; congruence.
    + exists (String "." ext). exact He.
  - intros Hs. destruct (stem_cases name) as [[He _] | (ext & _ & Hne & _)].
    + rewrite <- He. exact Hs.
    + contradiction.
Qed.

End Download.

(** ** Reading the collection *)

Lemma datetime_compare_eq (a b : datetime) :
  datetime_compare a b = Eq -> a = b.
Proof.
  unfold datetime_compare. destruct a, b; simpl.
  repeat match goal with
         | |- context [(?x ?= ?y)%N] =>
             destruct (N.compare_spec x y); simpl; try discriminate; subst
         end.
  reflexivity.
Qed.

Lemma bson_compare_eq (a b : bson_time) : bson_compare a b = Eq -> a = b.
Proof.
  destruct a, b; simpl; intros H; try discriminate.
  - apply String.compare_eq_iff in H. congruence.
  - apply datetime_compare_eq in H. congruence.
Qed.

Lemma StronglySorted_app_cross {A} (R : A -> A -> Prop) (l1 l2 : list A) :
  StronglySorted R (l1 ++ l2) ->
  forall a b, In a l1 -> In b l2 -> R a b.
Proof.
  induction l1 as [|x l1 IH]; simpl; intros H a b Ha Hb; [destruct Ha|].
  inversion H as [|? ? Hs Hall]; subst.
  destruct Ha as [->|Ha].
  - rewrite Forall_forall in Hall. apply Hall. apply in_or_app. right. exact Hb.
  - apply (IH Hs a b Ha Hb).
Qed.

(** Two descending arrangements of the same documents are equal when
    no two of them can stand in either order. *)
Lemma sorted_perm_unique {A} (R : A -> A -> Prop) (l1 l2 : list A) :
  (forall a b, In a l1 -> In b l1 -> R a b -> R b a -> a = b) ->
  StronglySorted R l1 -> StronglySorted R l2 -> Permutation l1 l2 ->
  l1 = l2.
Proof.
  revert l2. induction l1 as [|x l1 IH]; intros l2 Hanti H1 H2 Hp.
  - apply Permutation_nil in Hp. congruence.
  - destruct l2 as [|y l2].
    { apply Permutation_sym, Permutation_nil in Hp. discriminate. }
    inversion H1 as [|? ? Hs1 Hall1]; subst.
    inversion H2 as [|? ? Hs2 Hall2]; subst.
    rewrite Forall_forall in Hall1, Hall2.
    assert (Hxy : x = y).
    { assert (Hy : In y (x :: l1))
        by (apply (Permutation_in _ (Permutation_sym Hp)); left; reflexivity).
      assert (Hx : In x (y :: l2))
        by (apply (Permutation_in _ Hp); left; reflexivity).
      destruct Hy as [Hy|Hy]; [exact Hy|].
      destruct Hx as [Hx|Hx]; [symmetry; exact Hx|].
      apply Hanti; [left; reflexivity|right; exact Hy|apply Hall1; exact Hy|].
      apply Hall2. exact Hx. }
    subst y. f_equal. apply IH; auto.
    + intros a b Ha Hb. apply Hanti; right; assumption.
    + apply (Permutation_cons_inv Hp).
Qed.

Section ListExtras.
Context {F : PyFloat}.

Lemma newer_or_same_antisym (a b : document) :
  newer_or_same a b -> newer_or_same b a -> doc_timestamp a = doc_timestamp b.
Proof.
  unfold newer_or_same. intros Hab Hba. apply bson_compare_eq.
  rewrite bson_compare_antisym in Hba.
  destruct (bson_compare (doc_timestamp a) (doc_timestamp b));
    simpl in *; congruence.
Qed.

(** X5. What the compress handler writes, the list handler reads
    back: the timestamp survives [isoformat] then [fromisoformat], and
    the document built from a record converts to that same record,
    all seven fields. *)
Theorem written_record_reads_back (w : effects) (stats : CompressionStats) :
  valid_datetime (timestamp stats) = true ->
  fromisoformat (isoformat (timestamp stats)) = Ok (timestamp stats)
  /\ to_stats (project (stats_doc w stats)) = Ok stats.
Proof.
  intros Hv. split.
  - apply fromisoformat_isoformat. exact Hv.
  - apply to_stats_holds. repeat split. exact Hv.
Qed.

(** X6. The texts the service stores sort as the instants do: the
    comparison MongoDB makes of two stored timestamps is the
    chronological comparison of the instants (also between one with
    and one without a fraction), and different instants have
    different texts. *)
Theorem stored_text_sorts_chronologically (a b : datetime) :
  valid_datetime a = true -> valid_datetime b = true ->
  bson_compare (TsStr (isoformat a)) (TsStr (isoformat b)) =
    datetime_compare a b
  /\ datetime_compare a b = (instant a ?= instant b)%N
  /\ (isoformat a = isoformat b -> a = b).
Proof.
  intros Ha Hb. split; [|split].
  - simpl. apply compare_isoformat; assumption.
  - apply datetime_compare_instant; assumption.
  - apply isoformat_inj; assumption.
Qed.

Context {C : Cursor} {CL : Cursor_laws C}.

(** X7. The cap of 100 drops only the oldest: the documents that are
    not listed number the size of the collection less 100, and none of
    them is newer than a listed one. *)
Theorem unlisted_are_not_newer (st : state) :
  service_written (db st) ->
  exists listed unlisted l,
    Permutation (listed ++ unlisted) (db st)
    /\ get_compression_stats st = (Ok l, st)
    /\ Forall2 holds listed l
    /\ List.length unlisted = (List.length (db st) - 100)%nat
    /\ (forall a b sa sb,
          In a listed -> In b unlisted -> holds a sa -> holds b sb ->
          not_older sa sb).
Proof.
  intros Hw.
  set (docs := sort_timestamp_desc (db st)).
  assert (Hp : Permutation docs (db st)) by apply sort_perm.
  assert (Hwd : service_written docs)
    by (apply (service_written_perm _ _ Hp); exact Hw).
  assert (Hs : StronglySorted newer_or_same docs)
    by (apply service_sorted_strongly; [exact Hwd|apply sort_sorted]).
  destruct (mapM_holds (firstn 100 docs)) as (l & Hl & Hall);
    [apply service_written_firstn; exact Hwd|].
  exists (firstn 100 docs), (skipn 100 docs), l.
  rewrite firstn_skipn. repeat split; auto.
  - unfold get_compression_stats, find_recent. fold docs. rewrite Hl.
    reflexivity.
  - rewrite length_skipn, (Permutation_length Hp). reflexivity.
  - intros a b sa sb Ha Hb Hsa Hsb.
    apply (newer_or_same_not_older a b sa sb Hsa Hsb).
    rewrite <- (firstn_skipn 100 docs) in Hs.
    apply (StronglySorted_app_cross _ _ _ Hs a b Ha Hb).
Qed.

End ListExtras.

Section Determined.
Context {F : PyFloat}.

(** X9. When no two documents share a timestamp, the list is settled
    by which documents the collection holds: neither the order they
    were inserted in nor the server's choice among descending
    arrangements changes it. *)
Theorem listing_is_determined (C1 C2 : Cursor)
    (L1 : Cursor_laws C1) (L2 : Cursor_laws C2) (st1 st2 : state) :
  Permutation (db st1) (db st2) ->
  service_written (db st1) ->
  timestamps_distinct (db st1) ->
  fst (@get_compression_stats F C1 st1) = fst (@get_compression_stats F C2 st2).
Proof.
  intros Hp Hw Hd.
  unfold get_compression_stats, find_recent. cbn [fst].
  set (l1 := @sort_timestamp_desc F C1 (db st1)).
  set (l2 := @sort_timestamp_desc F C2 (db st2)).
  assert (Hp1 : Permutation l1 (db st1)) by apply sort_perm.
  assert (Hp2 : Permutation l2 (db st2)) by apply sort_perm.
  assert (Hw1 : service_written l1)
    by (apply (service_written_perm _ _ Hp1); exact Hw).
  assert (Hw2 : service_written l2).
  { apply (service_written_perm _ (db st1)); [|exact Hw].
    apply (perm_trans Hp2). apply Permutation_sym. exact Hp. }
  assert (H12 : l1 = l2).
  { apply (sorted_perm_unique newer_or_same).
    - intros a b Ha Hb Hab Hba. apply Hd.
      + apply (Permutation_in _ Hp1 Ha).
      + apply (Permutation_in _ Hp1 Hb).
      + apply newer_or_same_antisym; assumption.
    - apply service_sorted_strongly; [exact Hw1|apply sort_sorted].
    - apply service_sorted_strongly; [exact Hw2|apply sort_sorted].
    - apply (perm_trans Hp1). apply (perm_trans Hp).
      apply Permutation_sym. exact Hp2. }
  rewrite H12. reflexivity.
Qed.

End Determined.

(** ** Normalizer, start-up and serving *)

Section NormalizeTwice.
Context {P : PIL} {PL : PIL_laws P}.

Lemma normalize_output_mode (image out : Image) :
  normalize image = Ok out -> Image_mode out = "RGB".
Proof.
  unfold normalize. intros H.
  destruct (str_in (Image_mode image) ["RGBA"; "LA"; "P"]).
  - apply composite_on_white_output in H. apply H.
  - destruct (String.eqb (Image_mode image) "RGB") eqn:Hrgb; simpl in H.
    + inversion H; subst. apply String.eqb_eq. exact Hrgb.
    + exact (convert_mode _ _ _ H).
Qed.

(** X10. What the normalizer returns it leaves alone: normalizing the
    output again gives the output, and an RGB input is returned as the
    very same image. *)
Theorem normalize_is_idempotent (image out : Image) :
  normalize image = Ok out ->
  normalize out = Ok out
  /\ (Image_mode image = "RGB" -> out = image).
Proof.
  intros H. split.
  - apply normalize_output_mode in H. unfold normalize. rewrite H.
    reflexivity.
  - intros Hm. unfold normalize in H. rewrite Hm in H. simpl in H.
    inversion H. reflexivity.
Qed.

End NormalizeTwice.

(** ** CORS origins *)

Lemma str_split_nonempty (sep : ascii) (s : string) : str_split sep s <> [].
Proof.
  destruct s as [|c s]; simpl; [discriminate|].
  destruct (Ascii.eqb c sep); [discriminate|].
  destruct (str_split sep s); discriminate.
Qed.

Lemma str_split_join (sep : ascii) (s : string) :
  String.concat (String sep "") (str_split sep s) = s.
Proof.
  induction s as [|c s IH]; [reflexivity|].
  simpl str_split. pose proof (str_split_nonempty sep s) as Hne.
  destruct (str_split sep s) as [|p ps]; [contradiction|].
  destruct (Ascii.eqb c sep) eqn:Hc.
  - apply Ascii.eqb_eq in Hc. subst c.
    change (String.concat (String sep "") ("" :: p :: ps))
      with ("" ++ String sep "" ++ String.concat (String sep "") (p :: ps)).
    rewrite IH. reflexivity.
  - destruct ps as [|q qs].
    + simpl in *. rewrite IH. reflexivity.
    + change (String.concat (String sep "") (String c p :: q :: qs))
        with (String c (String.concat (String sep "") (p :: q :: qs))).
      rewrite IH. reflexivity.
Qed.

Lemma str_split_pieces (sep : ascii) (s : string) :
  Forall (fun p => Pathlib.has_char sep p = false) (str_split sep s).
Proof.
  induction s as [|c s IH]; simpl.
  - repeat constructor.
  - destruct (Ascii.eqb c sep) eqn:Hc.
    + constructor; [reflexivity|exact IH].
    + destruct (str_split sep s) as [|p ps].
      * constructor; [simpl; rewrite Hc; reflexivity|constructor].
      * inversion IH; subst. constructor; [|assumption].
        simpl. rewrite Hc. assumption.
Qed.

Lemma str_split_plain (sep : ascii) (s : string) :
  Pathlib.has_char sep s = false -> str_split sep s = [s].
Proof.
  induction s as [|c s IH]; simpl; intros H; [reflexivity|].
  apply orb_false_iff in H. destruct H as [Hc Hs].
  rewrite Hc, (IH Hs). reflexivity.
Qed.

Section StartupFacts.
Context {Mo : Motor}.

Lemma import_module_inv (dotenv os_environ : environ) (app : application) :
  import_module dotenv os_environ = Ok app ->
  exists url name,
    load_dotenv dotenv os_environ "MONGO_URL" = Some url
    /\ load_dotenv dotenv os_environ "DB_NAME" = Some name
    /\ AsyncIOMotorClient url = Ok (client app)
    /\ client_getitem (client app) name = Ok (database app)
    /\ router_prefix app = "/api"
    /\ middleware app =
       {| allow_credentials := true;
          allow_origins :=
            str_split "," (environ_get (load_dotenv dotenv os_environ)
                             "CORS_ORIGINS" "*");
          allow_methods := ["*"];
          allow_headers := ["*"] |}.
Proof.
  unfold import_module, environ_getitem, rbind. intros H.
  destruct (load_dotenv dotenv os_environ "MONGO_URL") as [url|];
    [|discriminate].
  destruct (AsyncIOMotorClient url) as [c|e] eqn:Hc; [|discriminate].
  destruct (load_dotenv dotenv os_environ "DB_NAME") as [name|];
    [|discriminate].
  destruct (client_getitem c name) as [d|e] eqn:Hd; [|discriminate].
  inversion H; subst; simpl. exists url, name. repeat split; auto.
Qed.

(** X11. The allowed origins are the pieces of [CORS_ORIGINS] between
    its commas, nothing trimmed: joined by commas they give the
    configured text back, none contains a comma, there is always at
    least one (an empty text gives one empty origin), a text without
    a comma is a single origin, and with the variable set nowhere the
    list is ["*"]. *)
Theorem cors_origins_split (dotenv os_environ : environ) (app : application) :
  import_module dotenv os_environ = Ok app ->
  let configured :=
    environ_get (load_dotenv dotenv os_environ) "CORS_ORIGINS" "*" in
  String.concat "," (allow_origins (middleware app)) = configured
  /\ allow_origins (middleware app) <> []
  /\ Forall (fun origin => Pathlib.has_char "," origin = false)
            (allow_origins (middleware app))
  /\ (Pathlib.has_char "," configured = false ->
      allow_origins (middleware app) = [configured])
  /\ (os_environ "CORS_ORIGINS" = None -> dotenv "CORS_ORIGINS" = None ->
      allow_origins (middleware app) = ["*"]).
Proof.
  intros H configured. apply import_module_inv in H.
  destruct H as (url & name & _ & _ & _ & _ & _ & Hm). rewrite Hm. simpl.
  fold configured. repeat split.
  - apply (str_split_join "," configured).
  - apply str_split_nonempty.
  - apply str_split_pieces.
  - apply str_split_plain.
  - intros Ho Hd. unfold configured, environ_get, load_dotenv.
    rewrite Ho, Hd. reflexivity.
Qed.

End StartupFacts.

Section ServingFacts.
Context {F : PyFloat} {P : PIL} {C : Cursor} {CL : Cursor_laws C}.

Lemma compress_image_db (file : UploadFile) (w : effects) (st : state) :
  db (snd (compress_image file w st)) = db st
  \/ exists stats,
       timestamp stats = utcnow w
       /\ db (snd (compress_image file w st)) =
          (db st ++ [stats_doc w stats])%list.
Proof.
  unfold compress_image.
  destruct (compress_try file w st) as [[r|e] st'] eqn:Htry;
    apply compress_try_state in Htry;
    destruct Htry as [-> | (stats & Ht & ->)]; simpl; auto;
    right; exists stats; auto.
Qed.

Lemma compress_keeps_written (file : UploadFile) (w : effects) (st : state) :
  valid_datetime (utcnow w) = true ->
  service_written (db st) ->
  service_written (db (snd (compress_image file w st))).
Proof.
  intros Hv Hw.
  destruct (compress_image_db file w st) as [-> | (stats & Ht & ->)];
    [exact Hw|].
  apply Forall_app. split; [exact Hw|].
  constructor; [|constructor]. exists stats. repeat split.
  rewrite Ht. exact Hv.
Qed.

(** X13. Serving requests in turn keeps the collection one the
    service wrote: after any sequence of compress and list requests
    (clocks valid) on such a collection, the old documents are still
    there in front, at most one was added per request, and the list
    handler returns a list, of 100 records or of all when there are
    fewer. *)
Theorem serving_keeps_collection_readable (reqs : list request) (st : state) :
  service_written (db st) ->
  clocks_valid reqs ->
  service_written (db (serve reqs st))
  /\ (exists kept, db (serve reqs st) = (db st ++ kept)%list
                   /\ (List.length kept <= List.length reqs)%nat)
  /\ exists l, get_compression_stats (serve reqs st) = (Ok l, serve reqs st)
               /\ List.length l = Nat.min 100 (List.length (db (serve reqs st))).
Proof.
  intros Hw Hc.
  assert (H : service_written (db (serve reqs st))
              /\ exists kept, db (serve reqs st) = (db st ++ kept)%list
                   /\ (List.length kept <= List.length reqs)%nat).
  { revert st Hw. induction Hc as [|q reqs Hq Hc IH]; intros st Hw.
    - split; [exact Hw|]. exists []. rewrite app_nil_r. auto.
    - destruct q as [file w|]; cbn [serve].
      + destruct (IH _ (compress_keeps_written file w st Hq Hw))
          as (Hw' & kept & Hk & Hl).
        split; [exact Hw'|].
        destruct (compress_image_db file w st) as [E | (stats & _ & E)];
          rewrite E in Hk.
        * exists kept. split; [exact Hk|]. simpl. lia.
        * exists (stats_doc w stats :: kept). rewrite <- app_assoc in Hk.
          split; [exact Hk|]. simpl. lia.
      + destruct (IH st Hw) as (Hw' & kept & Hk & Hl).
        split; [exact Hw'|]. exists kept. split; [exact Hk|]. simpl. lia. }
  destruct H as [Hw' Hk]. split; [exact Hw'|]. split; [exact Hk|].
  destruct (mapM_holds (firstn 100 (sort_timestamp_desc (db (serve reqs st)))))
    as (l & Hl & _).
  { apply service_written_firstn.
    apply (service_written_perm _ _ (sort_perm _)). exact Hw'. }
  exists l. split.
  - unfold get_compression_stats, find_recent. rewrite Hl. reflexivity.
  - apply mapM_length in Hl. rewrite Hl, length_map, length_firstn.
    rewrite (Permutation_length (sort_perm _)). reflexivity.
Qed.

End ServingFacts.

(** ** The further properties at sample requests *)

Section MoreSamples.
Import Reference Archive Deployment.
#[local] Existing Instance pyfloat.
#[local] Existing Instance pil.
#[local] Existing Instance insertion_cursor.
#[local] Existing Instance motor.

(** Runs a compress request that is answered and names what it gave. *)
Ltac run_answered file w st Hrun :=
  let v := eval vm_compute in (compress_image file w st) in
  match v with
  | (Response ?r, ?st') =>
      exists r, st';
      assert (Hrun : compress_image file w st = (Response r, st'))
        by (vm_compute; reflexivity)
  end.

Lemma stored_document_matches_response_witness :
  exists r st' d,
    compress_image photo_png (quiet noon) shuffled = (Response r, st')
    /\ db st' = (db shuffled ++ [d])%list
    /\ doc_original_filename d = "holiday/photo.png"
    /\ doc_original_size d = 11%Z
    /\ header "X-Original-Size" (headers r) = Some "11".
Proof.
  run_answered photo_png (quiet noon) shuffled Hrun.
  destruct (stored_document_matches_response photo_png (quiet noon) shuffled
              _ _ Hrun)
    as (c & i & name & d & Hr & _ & Hn & Hdb & _ & _ & Hf & Hs & _ & _ & _
        & _ & Hh & _).
  exists d. injection Hr as <-. injection Hn as <-.
  split; [exact Hrun|]. split; [exact Hdb|]. split; [exact Hf|].
  split; [exact Hs|]. rewrite Hh, Hs. reflexivity.
Defined.

Lemma download_name_has_no_directory_witness :
  exists r st' stem,
    compress_image photo_png (quiet noon) empty_state = (Response r, st')
    /\ header "Content-Disposition" (headers r) =
       Some ("attachment; filename=" ++ dquote ++ stem ++ ".webp" ++ dquote)
    /\ Pathlib.has_char "/" stem = false.
Proof.
  run_answered photo_png (quiet noon) empty_state Hrun.
  destruct (download_name_has_no_directory photo_png (quiet noon) empty_state
              _ _ Hrun)
    as (name & stem & _ & Hcd & Hslash & _).
  exists stem. split; [exact Hrun|]. split; [exact Hcd|exact Hslash].
Defined.

Lemma written_record_reads_back_witness :
  valid_datetime (timestamp (earlier 7)) = true
  /\ to_stats (project (stats_doc (quiet noon) (earlier 7))) = Ok (earlier 7).
Proof.
  split; [reflexivity|].
  exact (proj2 (written_record_reads_back (quiet noon) (earlier 7) eq_refl)).
Defined.

Lemma stored_text_sorts_chronologically_witness :
  valid_datetime noon = true /\ valid_datetime (timestamp (earlier 7)) = true
  /\ bson_compare (TsStr (isoformat noon))
       (TsStr (isoformat (timestamp (earlier 7)))) = Lt.
Proof.
  split; [reflexivity|]. split; [reflexivity|].
  rewrite (proj1 (stored_text_sorts_chronologically noon
                    (timestamp (earlier 7)) eq_refl eq_refl)).
  reflexivity.
Defined.

Lemma unlisted_are_not_newer_witness :
  service_written (db crowded)
  /\ exists listed unlisted,
       Permutation (listed ++ unlisted) (db crowded)
       /\ List.length unlisted = 1%nat
       /\ (forall a b sa sb,
             In a listed -> In b unlisted -> holds a sa -> holds b sb ->
             not_older sa sb).
Proof.
  split; [exact crowded_written|].
  destruct (@unlisted_are_not_newer pyfloat insertion_cursor
              insertion_cursor_laws crowded crowded_written)
    as (listed & unlisted & l & Hp & _ & _ & Hlen & Hnew).
  exists listed, unlisted. split; [exact Hp|]. split; [|exact Hnew].
  rewrite Hlen. reflexivity.
Defined.

Lemma shuffled_distinct : timestamps_distinct (db shuffled).
Proof.
  intros a b Ha Hb H.
  destruct Ha as [<-|[<-|[<-|[]]]]; destruct Hb as [<-|[<-|[<-|[]]]];
    try reflexivity; vm_compute in H; discriminate H.
Qed.

Lemma listing_is_determined_witness :
  Permutation (db shuffled) (db reversed)
  /\ fst (get_compression_stats shuffled) = fst (get_compression_stats reversed).
Proof.
  assert (Hp : Permutation (db shuffled) (db reversed))
    by apply Permutation_rev.
  split; [exact Hp|].
  exact (@listing_is_determined pyfloat insertion_cursor insertion_cursor
           insertion_cursor_laws insertion_cursor_laws shuffled reversed
           Hp shuffled_written shuffled_distinct).
Defined.

Lemma normalize_is_idempotent_witness :
  PIL_laws pil
  /\ exists out, normalize rgba_png = Ok out /\ normalize out = Ok out.
Proof.
  split; [exact reference_pil_laws|].
  eexists. split; [reflexivity|].
  exact (proj1 (@normalize_is_idempotent pil reference_pil_laws rgba_png _
                  eq_refl)).
Defined.

Lemma cors_origins_split_witness :
  exists app,
    import_module dotenv_file no_variables = Ok app
    /\ allow_origins (middleware app) =
       ["https://a.example"; "https://b.example"]
    /\ String.concat "," (allow_origins (middleware app)) =
       "https://a.example,https://b.example".
Proof.
  eexists. split; [reflexivity|]. split; [reflexivity|].
  exact (proj1 (@cors_origins_split motor dotenv_file no_variables _ eq_refl)).
Defined.

Lemma serving_keeps_collection_readable_witness :
  service_written (db shuffled) /\ clocks_valid morning
  /\ exists l,
       get_compression_stats (serve morning shuffled) =
         (Ok l, serve morning shuffled)
       /\ List.length l = 5%nat.
Proof.
  assert (Hc : clocks_valid morning) by (repeat constructor).
  split; [exact shuffled_written|]. split; [exact Hc|].
  destruct (@serving_keeps_collection_readable pyfloat pil insertion_cursor
              insertion_cursor_laws morning shuffled shuffled_written Hc)
    as (_ & _ & l & Hrun & Hlen).
  exists l. split; [exact Hrun|]. rewrite Hlen. reflexivity.
Defined.

End MoreSamples.
